(** * ocr2table: batch conversion of scanned tables through a remote OCR service

    A shallow embedding of [src/ocr2table.py] and the properties of its
    batch pipeline: file discovery ([get_all_files]), payload encoding
    ([_load_file]), the recognition client ([get_ocr_result]) and the
    orchestrator ([collect_data]).

    Conventions of the embedding
    - Python [str] and [bytes] are [string] and [list byte]; [int] is [Z].
    - A [pathlib.Path] is the sequence of its components.  The program only
      builds paths relative to the working directory, so drive and root are
      empty throughout.
    - The file system, the log, the requests sent to the provider and the
      files written are fields of an explicit [World]; functions that touch
      them live in the monad [Py], which also carries Python exceptions.
    - The provider is a function of the number of the call and of the
      request, so that it may answer the same request differently over a
      run; [base64.b64decode], which reads what the provider returns, is
      left open in the class [Base64Lib].
    - [pathlib] is modelled as in CPython 3.9 to 3.12 (the source needs
      3.9 for [list[Path]]).
    - Opening a file that does not exist raises; creating the output
      directory and writing a file always succeed. *)

From Stdlib Require Import ZArith QArith Lia.
From Stdlib Require Import Strings.String Strings.Ascii Strings.Byte.
From stdpp Require Import base option list gmap strings.

Local Open Scope string_scope.
Local Open Scope list_scope.
Local Open Scope Z_scope.

(** ** Python strings *)

Module PyStr.

(** [len(s)] *)
Definition len (s : string) : Z := Z.of_nat (String.length s).

(** [s.rfind(c)]: index of the last occurrence of [c], or [-1]. *)
Fixpoint rfind (c : ascii) (s : string) : Z :=
  match s with
  | EmptyString => -1
  | String a s' =>
      let r := rfind c s' in
      if 0 <=? r then r + 1
      else if Ascii.eqb a c then 0 else -1
  end.

(** [s[:n]] for a natural [n] *)
Fixpoint take (n : nat) (s : string) : string :=
  match n, s with
  | S n', String a s' => String a (take n' s')
  | _, _ => EmptyString
  end.

(** [s[n:]] for a natural [n] *)
Fixpoint drop (n : nat) (s : string) : string :=
  match n, s with
  | S n', String _ s' => drop n' s'
  | _, _ => s
  end.

(** [s[:i]] and [s[i:]] for a Python index [i], negative counting from
    the end, clipped to the string as slices are. *)
Definition norm_index (i : Z) (s : string) : nat :=
  Z.to_nat (Z.min (len s) (if i <? 0 then Z.max 0 (len s + i) else i)).

Definition slice_to (s : string) (i : Z) : string := take (norm_index i s) s.
Definition slice_from (s : string) (i : Z) : string := drop (norm_index i s) s.

(** [c in s] *)
Fixpoint contains (c : ascii) (s : string) : bool :=
  match s with
  | EmptyString => false
  | String a s' => Ascii.eqb a c || contains c s'
  end.

(** [s.startswith(c)] for a one-character [c] *)
Definition startswith (c : ascii) (s : string) : bool :=
  match s with
  | String a _ => Ascii.eqb a c
  | EmptyString => false
  end.

End PyStr.

(** ** pathlib *)

(** A relative path, as the list of its components ([PurePath.parts]). *)
Abbreviation Path := (list string).

Module PurePath.

(** [p / seg] for a segment that is a single component, which is all this
    program joins: a directory entry or a stem.  As in [_parse_parts], an
    empty segment and ["."] leave the path as it is. *)
Definition truediv (p : Path) (seg : string) : Path :=
  if bool_decide (seg = "" ∨ seg = ".") then p else p ++ [seg].

(** [p.name]: the final component, [''] for the empty path. *)
Definition name (p : Path) : string := List.last p "".

(** The test shared by [suffix] and [stem]: [0 < i < len(name) - 1]. *)
Definition dot_splits (nm : string) (i : Z) : bool :=
  (0 <? i) && (i <? PyStr.len nm - 1).

(** [p.suffix] *)
Definition suffix (p : Path) : string :=
  let nm := name p in
  let i := PyStr.rfind "." nm in
  if dot_splits nm i then PyStr.slice_from nm i else "".

(** [p.stem] *)
Definition stem (p : Path) : string :=
  let nm := name p in
  let i := PyStr.rfind "." nm in
  if dot_splits nm i then PyStr.slice_to nm i else nm.

End PurePath.

Infix "</>" := PurePath.truediv (at level 40, left associativity).

(** ** Module constants (lines 37 to 43) *)

Definition SUPPORT_SUFFIX : list string := [".png"; ".jpg"; ".jpeg"; "bmp"; ".pdf"].
Definition MAX_SIZE : Z := 7 * 1024 ^ 2.
Definition IMAGE_DIR : Path := ["tables"].
Definition OUTPUT : Path := ["output"].

(** ** Directory trees and [os.walk] *)

(** What [os.scandir] lists: entries that are not directories, with their
    content, and directories with their own listing, in listing order. *)
#[warnings="-register-all"]
Inductive Entry : Type :=
  | File (fname : string) (content : list byte)
  | Dir (dname : string) (entries : list Entry).

Definition nondirs (es : list Entry) : list string :=
  flat_map (fun e => match e with File n _ => [n] | Dir _ _ => [] end) es.

Definition subdirs (es : list Entry) : list string :=
  flat_map (fun e => match e with File _ _ => [] | Dir n _ => [n] end) es.

(** [os.walk(top)], top-down: the triple of [top] first, then the walk of
    every subdirectory in listing order.  An entry that is not a directory
    yields nothing of its own. *)
Fixpoint walk_entry (top : Path) (e : Entry) : list (Path * list string * list string) :=
  match e with
  | File _ _ => []
  | Dir d es =>
      let root := top ++ [d] in
      (root, subdirs es, nondirs es) :: flat_map (walk_entry root) es
  end.

Definition os_walk (top : Path) (es : list Entry) : list (Path * list string * list string) :=
  (top, subdirs es, nondirs es) :: flat_map (walk_entry top) es.

(** ** File discovery (lines 66 to 79) *)

(** The body of the inner loop: the file joined to its directory, kept when
    its suffix is in [SUPPORT_SUFFIX]. *)
Definition keep_supported (root : Path) (file : string) : list Path :=
  let file := root </> file in
  if bool_decide (PurePath.suffix file ∈ SUPPORT_SUFFIX) then [file] else [].

(** The two loops over what the walk yields. *)
Definition collect_supported (walk : list (Path * list string * list string)) : list Path :=
  flat_map (fun '(root, _, files) => flat_map (keep_supported root) files) walk.

(** [get_all_files()], over the listing of [IMAGE_DIR]. *)
Definition get_all_files (tables : list Entry) : list Path :=
  collect_supported (os_walk IMAGE_DIR tables).

(** For the statements about discovery: every entry of a tree that is not a
    directory, as a path below [top]. *)
Fixpoint entry_files (top : Path) (e : Entry) : list Path :=
  match e with
  | File n _ => [top </> n]
  | Dir d es => flat_map (entry_files (top ++ [d])) es
  end.

Definition tree_files (top : Path) (es : list Entry) : list Path :=
  flat_map (entry_files top) es.

(** The suffixes [SUPPORT_SUFFIX] lets through: its entry ["bmp"] has no
    dot, and no suffix equals it. *)
Definition EFFECTIVE_SUFFIX : list string := [".png"; ".jpg"; ".jpeg"; ".pdf"].

(** ** base64 (standard alphabet, padded, RFC 4648) *)

Module base64.

Definition alphabet : list byte :=
  list_byte_of_string "ABCDEFGHIJKLMNOPQRSTUVWXYZabcdefghijklmnopqrstuvwxyz0123456789+/".

(** The character of a six-bit value. *)
Definition char (n : N) : byte := nth (N.to_nat n) alphabet "="%byte.

Definition sextet1 (a : N) : N := N.shiftr a 2.
Definition sextet2 (a b : N) : N := N.lor (N.shiftl (N.land a 3) 4) (N.shiftr b 4).
Definition sextet3 (b c : N) : N := N.lor (N.shiftl (N.land b 15) 2) (N.shiftr c 6).
Definition sextet4 (c : N) : N := N.land c 63.

(** [base64.b64encode(s)]: four characters for every three bytes, the last
    group padded with ["="]. *)
Fixpoint b64encode (s : list byte) : list byte :=
  match s with
  | [] => []
  | [a] =>
      let a := Byte.to_N a in
      [char (sextet1 a); char (sextet2 a 0); "="%byte; "="%byte]
  | [a; b] =>
      let a := Byte.to_N a in
      let b := Byte.to_N b in
      [char (sextet1 a); char (sextet2 a b); char (sextet3 b 0); "="%byte]
  | a :: b :: c :: rest =>
      let a := Byte.to_N a in
      let b := Byte.to_N b in
      let c := Byte.to_N c in
      char (sextet1 a) :: char (sextet2 a b) :: char (sextet3 b c) :: char (sextet4 c)
        :: b64encode rest
  end.

End base64.

(** ** Values, exceptions and the world *)

(** The values the request dictionary holds, as [json.dumps] writes them. *)
Inductive JValue : Type :=
  | JStr (s : string)
  | JBool (b : bool)
  | JInt (z : Z).

(** The [params] dictionary, which [from_json_string(json.dumps(params))]
    turns into the request: the request is identified with it. *)
Abbreviation Request := (gmap string JValue).

(** The two fields of [RecognizeTableOCRResponse] the program reads. *)
Record Response : Type := mkResponse { Data : string; RequestId : string }.

Inductive PyExc : Type :=
  | OSError (file : Path)
  | ValueError (what : string)
  | BinasciiError
  | TencentCloudSDKException (code message : string)
  | OtherException (what : string).

(** The outcome of a call: a value, or a raised exception. *)
Inductive Res (A : Type) : Type :=
  | Ret (a : A)
  | Raise (e : PyExc).
Arguments Ret {A} a.
Arguments Raise {A} e.

Inductive Level : Type := DEBUG | INFO | ERROR.

(** What is handed to a logger.  The f-string of [_load_file] is kept
    unrendered: its text with [{}] for each interpolated quotient, and the
    exact quotients (Python renders their float approximations). *)
Inductive PyObj : Type :=
  | OStr (s : string)
  | OFStr (template : string) (values : list Q)
  | ODict (d : gmap string JValue)
  | OExc (e : PyExc).

(** A call [logging.getLogger(name).<level>(msg, *args)]. Every call is
    recorded; which of them the handlers print depends on the level set in
    [main]. *)
Record LogRecord : Type := mkLog {
  logger : string;
  levelname : Level;
  msg : PyObj;
  args : list PyObj
}.

(** [disk]: the content of every file that can be opened; [made_dirs],
    [logs], [calls] and [writes]: the directories created, the log calls,
    the requests sent to the provider and the files written, oldest first. *)
Record World : Type := mkWorld {
  disk : gmap Path (list byte);
  made_dirs : list Path;
  logs : list LogRecord;
  calls : list Request;
  writes : list (Path * list byte)
}.

(** The remote provider behind [client.RecognizeTableOCR]: what the call
    number [n] (counted from 0 over the run) answers to a request. Any
    exception may come out of it. *)
Abbreviation OcrClient := (nat → Request → Res Response).

(** The part of the Python library whose behaviour is left open: how
    [base64.b64decode] reads the [Data] of a response ([binascii.Error] on
    what it rejects). *)
Class Base64Lib : Type := { b64decode : string → Res (list byte) }.

(** ** The monad of effects *)

Definition Py (A : Type) : Type := World → Res A * World.

#[global] Instance Py_ret : MRet Py := λ A a w, (Ret a, w).

#[global] Instance Py_bind : MBind Py := λ A B f m w,
  match m w with
  | (Ret a, w') => f a w'
  | (Raise e, w') => (Raise e, w')
  end.

Definition raise {A} (e : PyExc) : Py A := λ w, (Raise e, w).

(** A pure computation that may raise. *)
Definition lift {A} (r : Res A) : Py A := λ w, (r, w).

(** [try: body except <the exceptions handler accepts>: handler] *)
Definition try_except {A} (body : Py A) (handler : PyExc → option (Py A)) : Py A := λ w,
  match body w with
  | (Ret a, w') => (Ret a, w')
  | (Raise e, w') =>
      match handler e with
      | Some h => h w'
      | None => (Raise e, w')
      end
  end.

Fixpoint for_each {A} (xs : list A) (body : A → Py unit) : Py unit :=
  match xs with
  | [] => mret tt
  | x :: xs' => body x ;; for_each xs' body
  end.

(** The four ways the program changes the world. *)
Definition push_log (r : LogRecord) (w : World) : World :=
  mkWorld (disk w) (made_dirs w) (logs w ++ [r]) (calls w) (writes w).

Definition push_call (req : Request) (w : World) : World :=
  mkWorld (disk w) (made_dirs w) (logs w) (calls w ++ [req]) (writes w).

Definition push_write (file : Path) (data : list byte) (w : World) : World :=
  mkWorld (<[file := data]> (disk w)) (made_dirs w) (logs w) (calls w)
          (writes w ++ [(file, data)]).

Definition push_dir (p : Path) (w : World) : World :=
  mkWorld (disk w) (made_dirs w ++ [p]) (logs w) (calls w) (writes w).

Definition log (name : string) (lvl : Level) (m : PyObj) (a : list PyObj) : Py unit := λ w,
  (Ret tt, push_log (mkLog name lvl m a) w).

(** [with open(file, 'rb') as f: f.read()] *)
Definition read_bytes (file : Path) : Py (list byte) := λ w,
  match disk w !! file with
  | Some content => (Ret content, w)
  | None => (Raise (OSError file), w)
  end.

(** [with open(file, 'wb') as f: f.write(data)]; errors of writing are not
    modelled. *)
Definition write_bytes (file : Path) (data : list byte) : Py unit := λ w,
  (Ret tt, push_write file data w).

(** [p.mkdir(exist_ok=True)] where [p] is absent or is a directory already,
    and its parent can be written: the call returns.  The [FileExistsError]
    of a regular file at [p] and the other errors of creating are not
    modelled, and [made_dirs] records the call, not a directory that is
    new: the statements about whole runs are about runs that get past this
    line. *)
Definition mkdir_exist_ok (p : Path) : Py unit := λ w,
  (Ret tt, push_dir p w).

(** [client.RecognizeTableOCR(req)] *)
Definition RecognizeTableOCR (client : OcrClient) (req : Request) : Py Response := λ w,
  (client (length (calls w)) req, push_call req w).

(** ** pathlib, continued: [with_suffix] *)

Definition with_suffix (p : Path) (suffix : string) : Res Path :=
  if PyStr.contains "/" suffix then Raise (ValueError "Invalid suffix")
  else if (negb (String.eqb suffix "") && negb (PyStr.startswith "." suffix))
          || String.eqb suffix "."
  then Raise (ValueError "Invalid suffix")
  else
    let name := PurePath.name p in
    if String.eqb name "" then Raise (ValueError "empty name")
    else
      let old_suffix := PurePath.suffix p in
      let name :=
        if String.eqb old_suffix "" then name +:+ suffix
        else PyStr.slice_to name (- PyStr.len old_suffix) +:+ suffix in
      Ret (removelast p ++ [name]).

(** ** Payload encoder (lines 82 to 91) *)

Definition len_bytes (s : list byte) : Z := Z.of_nat (length s).

(** The message of line 88 for an encoded size: the limit and the size,
    both divided by [1024**2]. *)
Definition too_large_msg (size : Z) : PyObj :=
  OFStr "base64加密后的文件大小超过限定值({}MB): {}"
        [(MAX_SIZE # 1048576)%Q; (size # 1048576)%Q].

Definition _load_file (file : Path) : Py string :=
  content ← read_bytes file;
  let content := base64.b64encode content in
  let size := len_bytes content in
  if MAX_SIZE <? size then
    let msg := too_large_msg size in
    log "_load_file" ERROR msg [];;
    mret ""
  else mret (string_of_list_byte content).

(** ** Recognition client (lines 94 to 126) *)

(** Truth value of the [pdf_page] argument: [None] and [0] are false. *)
Definition truthy (pdf_page : option Z) : bool :=
  match pdf_page with
  | Some z => negb (z =? 0)
  | None => false
  end.

(** Lines 108 to 112: the request parameters for an encoded content. *)
Definition request_params (content : string) (file : Path) (pdf_page : option Z) : Request :=
  let params : Request := {["ImageBase64" := JStr content]} in
  let params :=
    if String.eqb (PurePath.suffix file) ".pdf"
    then <["IsPdf" := JBool true]> params else params in
  match pdf_page with
  | Some z => if truthy pdf_page then <["PdfPageNumber" := JInt z]> params else params
  | None => params
  end.

Definition get_ocr_result `{lib : Base64Lib} (client : OcrClient) (file : Path)
    (pdf_page : option Z) : Py (list byte) :=
  content ← _load_file file;
  if String.eqb content "" then mret []
  else
    let params := request_params content file pdf_page in
    log "get_ocr_result" DEBUG (OStr "额外请求参数: %s")
        [ODict (delete "ImageBase64" params)];;
    let req := params in
    try_except
      (response ← RecognizeTableOCR client req;
       data ← lift (b64decode (Data response));
       log "get_ocr_result" DEBUG (OStr "已获取结果, 请求ID: %s") [OStr (RequestId response)];;
       mret data)
      (λ error,
        match error with
        | TencentCloudSDKException _ _ =>
            Some (log "get_ocr_result" ERROR (OExc error) [];; mret [])
        | _ => None
        end).

(** ** Batch orchestrator (lines 129 to 147) *)

(** Line 144, for the stem [name] of line 141. *)
Definition excel_path (file : Path) : Res Path :=
  with_suffix (OUTPUT </> PurePath.stem file) ".xlsx".

(** The body of the loop, lines 141 to 147. *)
Definition collect_data_body `{lib : Base64Lib} (client : OcrClient) (file : Path) : Py unit :=
  let name := PurePath.stem file in
  log "collect_data" INFO (OStr "正在处理: %s") [OStr name];;
  result ← get_ocr_result client file None;
  excel ← lift (with_suffix (OUTPUT </> name) ".xlsx");
  write_bytes excel result;;
  log "collect_data" INFO (OStr "已写入工作表: %s") [OStr name].

Definition collect_data `{lib : Base64Lib} (client : OcrClient) (files : list Path) : Py unit :=
  log "collect_data" INFO (OStr "开始获取并汇总OCR识别结果") [];;
  mkdir_exist_ok OUTPUT;;
  for_each files (collect_data_body client).

(** The world a run starts in: the files on disk, nothing done yet. *)
Definition initial_world (files : gmap Path (list byte)) : World :=
  mkWorld files [] [] [] [].

(** ** Vocabulary of the statements *)

(** The log records the program writes, by the line that writes them. *)
Definition too_large_record (size : Z) : LogRecord :=
  mkLog "_load_file" ERROR (too_large_msg size) [].

Definition params_record (req : Request) : LogRecord :=
  mkLog "get_ocr_result" DEBUG (OStr "额外请求参数: %s") [ODict (delete "ImageBase64" req)].

Definition result_record (response : Response) : LogRecord :=
  mkLog "get_ocr_result" DEBUG (OStr "已获取结果, 请求ID: %s") [OStr (RequestId response)].

Definition sdk_error_record (code message : string) : LogRecord :=
  mkLog "get_ocr_result" ERROR (OExc (TencentCloudSDKException code message)) [].

Definition start_record : LogRecord :=
  mkLog "collect_data" INFO (OStr "开始获取并汇总OCR识别结果") [].

Definition processing_record (file : Path) : LogRecord :=
  mkLog "collect_data" INFO (OStr "正在处理: %s") [OStr (PurePath.stem file)].

Definition written_record (file : Path) : LogRecord :=
  mkLog "collect_data" INFO (OStr "已写入工作表: %s") [OStr (PurePath.stem file)].

(** The text [_load_file] returns for a content within the limit. *)
Definition encoded_text (content : list byte) : string :=
  string_of_list_byte (base64.b64encode content).

Definition encoded_size (content : list byte) : Z :=
  len_bytes (base64.b64encode content).

(** A payload the client submits: not empty, and within the limit. *)
Definition accepted (content : list byte) : Prop :=
  content ≠ [] ∧ encoded_size content ≤ MAX_SIZE.

(** The provider fails with its own exception. *)
Definition sdk_failure (r : Res Response) : Prop :=
  ∃ code message, r = Raise (TencentCloudSDKException code message).

(** What one call of the client amounts to, as a function of what it
    observes: the content of the file, if it can be read, and the answer the
    provider gives to the request.  The value is the outcome of the call,
    the requests it sends and the records it logs. *)
Definition recognition `{lib : Base64Lib} (answer : Request → Res Response)
    (content : option (list byte)) (file : Path) (pdf_page : option Z)
    : Res (list byte) * list Request * list LogRecord :=
  match content with
  | None => (Raise (OSError file), [], [])
  | Some content =>
      if MAX_SIZE <? encoded_size content
      then (Ret [], [], [too_large_record (encoded_size content)])
      else if String.eqb (encoded_text content) "" then (Ret [], [], [])
      else
        let req := request_params (encoded_text content) file pdf_page in
        match answer req with
        | Ret response =>
            match b64decode (Data response) with
            | Ret data => (Ret data, [req], [params_record req; result_record response])
            | Raise (TencentCloudSDKException code message) =>
                (Ret [], [req], [params_record req; sdk_error_record code message])
            | Raise e => (Raise e, [req], [params_record req])
            end
        | Raise (TencentCloudSDKException code message) =>
            (Ret [], [req], [params_record req; sdk_error_record code message])
        | Raise e => (Raise e, [req], [params_record req])
        end
  end.

(** A world with more records logged and more requests sent. *)
Definition extend (ls : list LogRecord) (cs : list Request) (w : World) : World :=
  mkWorld (disk w) (made_dirs w) (logs w ++ ls) (calls w ++ cs) (writes w).

(** A provider within the failures the program handles: it answers, with
    a [Data] the decoder reads, or fails with its own exception. *)
Definition well_behaved `{lib : Base64Lib} (client : OcrClient) : Prop :=
  ∀ n req,
    (∃ response data, client n req = Ret response ∧ b64decode (Data response) = Ret data) ∨
    sdk_failure (client n req).

(** An output that stands for a file: it is at the path derived from the
    file, and holds nothing or the decoded [Data] of an answer of the
    provider. *)
Definition artifact_of `{lib : Base64Lib} (client : OcrClient) (file : Path)
    (out : Path * list byte) : Prop :=
  excel_path file = Ret out.1 ∧
  (out.2 = [] ∨
   ∃ n req response, client n req = Ret response ∧ b64decode (Data response) = Ret out.2).

(** What the client returns for a file, in the world [w] an iteration
    starts in, by the path the file takes: too large, empty, refused by the
    provider, or recognized.  The three first give [b'']; the last gives the
    decoded [Data] of the answer to the request of this file.  The paths
    exclude each other, so that a file that is too large, empty or refused
    gets [b''], which the last part says in so many words. *)
Definition outcome_of `{lib : Base64Lib} (client : OcrClient) (w : World) (file : Path)
    (result : list byte) : Prop :=
  ∃ content,
    disk w !! file = Some content ∧
    ((MAX_SIZE < encoded_size content ∧ result = []) ∨
     (content = [] ∧ result = []) ∨
     (accepted content ∧ result = [] ∧
      sdk_failure (client (length (calls w))
                     (request_params (encoded_text content) file None))) ∨
     (accepted content ∧
      ∃ response,
        client (length (calls w)) (request_params (encoded_text content) file None)
          = Ret response ∧
        b64decode (Data response) = Ret result)) ∧
    (MAX_SIZE < encoded_size content ∨ content = [] ∨
     sdk_failure (client (length (calls w))
                    (request_params (encoded_text content) file None)) →
     result = []).

(** A run of the loop that completes, file by file: for every file, the
    client returns [result] in the world the iteration has reached, and
    the iteration writes [result] at the output path of the file. *)
Inductive file_by_file `{lib : Base64Lib} (client : OcrClient)
    : list Path → World → list (Path * list byte) → World → Prop :=
  | file_by_file_nil w : file_by_file client [] w [] w
  | file_by_file_cons file files w result w1 excel outs w' :
      get_ocr_result client file None (push_log (processing_record file) w) = (Ret result, w1) →
      outcome_of client w file result →
      excel_path file = Ret excel →
      file_by_file client files
        (push_log (written_record file) (push_write excel result w1)) outs w' →
      file_by_file client (file :: files) w ((excel, result) :: outs) w'.

(** Two worlds that have sent the same requests and hold the same files,
    but for the content of [excel]. *)
Definition same_but_at (excel : Path) (w1 w2 : World) : Prop :=
  calls w1 = calls w2 ∧ ∀ p, p ≠ excel → disk w1 !! p = disk w2 !! p.

(** ** Sample collaborators, for the concrete runs *)

(** A decoder that reads one text, the encoding of [b"hi"]. *)
Definition sample_base64 : Base64Lib :=
  {| b64decode := λ s, if String.eqb s "aGk=" then Ret ["h"%byte; "i"%byte]
                       else Raise BinasciiError |}.

Definition answering_client : OcrClient :=
  λ _ _, Ret (mkResponse "aGk=" "req-1").

Definition failing_client : OcrClient :=
  λ _ _, Raise (TencentCloudSDKException "AuthFailure" "signature rejected").

(** A client that fails on its call number [k] and answers the others. *)
Definition failing_at (k : nat) : OcrClient :=
  λ n req, if bool_decide (n = k) then failing_client n req else answering_client n req.

(** A file of 5505024 zero bytes, whose encoding has [MAX_SIZE]
    characters, and one a byte longer. *)
Definition largest_content : list byte := replicate (Z.to_nat 5505024) "000"%byte.
Definition oversize_content : list byte := "000"%byte :: largest_content.

(** The scenario of the concrete runs: three files on disk, of which the
    second, [b.pdf], is the one the provider may fail on, and an empty one. *)
Definition sample_disk : gmap Path (list byte) :=
  {[ ["tables"; "a.png"] := ["h"%byte; "i"%byte];
     ["tables"; "b.pdf"] := ["p"%byte; "d"%byte; "f"%byte];
     ["tables"; "sub"; "c.jpg"] := ["j"%byte];
     ["tables"; "blank.png"] := [] ]}.

(** The files of a tree, as a disk, for the concrete runs: the disk of a
    tree whose every file can be opened.  A listing may also hold names that
    cannot be opened (a dangling link, a file without permission); the
    statements about the batch take what can be read as a hypothesis on the
    world, not from this disk. *)
Fixpoint entry_disk (top : Path) (e : Entry) : gmap Path (list byte) :=
  match e with
  | File n c => {[ top </> n := c ]}
  | Dir d es => ⋃ (map (entry_disk (top ++ [d])) es)
  end.

Definition tree_disk (top : Path) (es : list Entry) : gmap Path (list byte) :=
  ⋃ (map (entry_disk top) es).

(** ** Vocabulary of the statements about whole runs *)

(** A disk after files have been written to it, oldest first. *)
Definition apply_writes (ws : list (Path * list byte)) (d : gmap Path (list byte))
    : gmap Path (list byte) :=
  foldl (λ d out, <[out.1 := out.2]> d) d ws.

(** A request the orchestrator may send: the parameters built for a file
    whose payload is accepted, with no page number. *)
Definition sendable (req : Request) : Prop :=
  ∃ content file, accepted content ∧ req = request_params (encoded_text content) file None.

(** A log record that holds no payload: no dictionary handed to the logger
    has the key [ImageBase64]. *)
Definition payload_free (r : LogRecord) : Prop :=
  (∀ d, msg r ≠ ODict d) ∧ ∀ d, ODict d ∈ args r → d !! "ImageBase64" = None.


(** The records of the logger of [collect_data] among some records. *)
Definition progress (ls : list LogRecord) : list LogRecord :=
  filter (λ r, logger r = "collect_data") ls.

(** An exception the client does not catch. *)
Definition uncaught (e : PyExc) : Prop :=
  ∀ code message, e ≠ TencentCloudSDKException code message.

(** A world after a stretch of a run: the records logged, the requests
    sent and the files written over the stretch, each oldest first. *)
Definition grow (ls : list LogRecord) (cs : list Request) (ws : list (Path * list byte))
    (w : World) : World :=
  mkWorld (apply_writes ws (disk w)) (made_dirs w) (logs w ++ ls) (calls w ++ cs)
          (writes w ++ ws).

(** A reader of what [base64.b64encode] writes, for the statement that the
    encoding loses nothing: the value of a character of the alphabet, the
    bytes of a group of four characters, and the reading of a padded text
    group by group.  It refuses what the encoder never writes. *)
Definition b64_value (c : byte) : option N :=
  (fix find (l : list byte) (i : N) : option N :=
     match l with
     | [] => None
     | x :: l' => if Byte.eqb x c then Some i else find l' (N.succ i)
     end) base64.alphabet 0%N.

Definition byte_of (n : N) : byte := default "000"%byte (Byte.of_N n).

Definition octet1 (v1 v2 : N) : N := N.lor (N.shiftl v1 2) (N.shiftr v2 4).
Definition octet2 (v2 v3 : N) : N := N.lor (N.shiftl (N.land v2 15) 4) (N.shiftr v3 2).
Definition octet3 (v3 v4 : N) : N := N.lor (N.shiftl (N.land v3 3) 6) v4.

Fixpoint read_base64 (s : list byte) : option (list byte) :=
  match s with
  | [] => Some []
  | c1 :: c2 :: c3 :: c4 :: rest =>
      if Byte.eqb c4 "="%byte then
        match rest with
        | [] =>
            if Byte.eqb c3 "="%byte then
              v1 ← b64_value c1; v2 ← b64_value c2;
              Some [byte_of (octet1 v1 v2)]
            else
              v1 ← b64_value c1; v2 ← b64_value c2; v3 ← b64_value c3;
              Some [byte_of (octet1 v1 v2); byte_of (octet2 v2 v3)]
        | _ :: _ => None
        end
      else
        v1 ← b64_value c1; v2 ← b64_value c2; v3 ← b64_value c3; v4 ← b64_value c4;
        tail ← read_base64 rest;
        Some (byte_of (octet1 v1 v2) :: byte_of (octet2 v2 v3) :: byte_of (octet3 v3 v4) :: tail)
  | _ => None
  end.

(** A listing as a file system gives it: the names are single components
    other than [""] and ["."], and no two entries of a directory have the
    same name. *)
Definition entry_name (e : Entry) : string :=
  match e with
  | File n _ => n
  | Dir d _ => d
  end.

Fixpoint well_formed (e : Entry) : Prop :=
  match e with
  | File n _ => n ≠ "" ∧ n ≠ "."
  | Dir d es =>
      d ≠ "" ∧ d ≠ "." ∧ NoDup (map entry_name es) ∧
      foldr (λ e P, well_formed e ∧ P) True es
  end.

Definition well_formed_listing (es : list Entry) : Prop :=
  NoDup (map entry_name es) ∧ foldr (λ e P, well_formed e ∧ P) True es.

(** * Properties *)

(** ** The model on concrete inputs *)

Example discovery_scenario :
  get_all_files [File "a.png" []; File "c.txt" []; Dir "sub" [File "b.pdf" []; File "d.JPG" []]]
  = [["tables"; "a.png"]; ["tables"; "sub"; "b.pdf"]].
Proof. vm_compute. reflexivity. Qed.

Example suffix_examples :
  map (fun n => PurePath.suffix [n]) ["a.png"; "a.tar.gz"; ".png"; "a."; "a"; "x.bmp"]
  = [".png"; ".gz"; ""; ""; ""; ".bmp"].
Proof. vm_compute. reflexivity. Qed.

Example stem_examples :
  map (fun n => PurePath.stem [n]) ["a.png"; "a.tar.gz"; ".png"; "a."; "a"; "..png"]
  = ["a"; "a.tar"; ".png"; "a."; "a"; "."].
Proof. vm_compute. reflexivity. Qed.

Example b64encode_examples :
  map (fun s => string_of_list_byte (base64.b64encode (list_byte_of_string s)))
      [""; "f"; "fo"; "foo"; "foob"; "fooba"; "foobar"]
  = [""; "Zg=="; "Zm8="; "Zm9v"; "Zm9vYg=="; "Zm9vYmE="; "Zm9vYmFy"].
Proof. vm_compute. reflexivity. Qed.

Example b64encode_high_bytes :
  string_of_list_byte (base64.b64encode ["255"%byte; "254"%byte; "253"%byte; "000"%byte])
  = "//79AA==".
Proof. vm_compute. reflexivity. Qed.

Example excel_path_examples :
  map excel_path
      [["tables"; "a.png"]; ["tables"; "sub"; "a.pdf"]; ["tables"; "a.b.png"];
       ["tables"; "..png"]; ["tables"; "...png"]; ["tables"; ".hidden.png"]; ["tables"; "a..png"]]
  = [Ret ["output"; "a.xlsx"]; Ret ["output"; "a.xlsx"]; Ret ["output"; "a.xlsx"];
     Ret ["output.xlsx"]; Ret ["output"; "...xlsx"]; Ret ["output"; ".hidden.xlsx"];
     Ret ["output"; "a..xlsx"]].
Proof. vm_compute. reflexivity. Qed.


(** ** Strings and paths *)

Lemma rfind_range c s : -1 ≤ PyStr.rfind c s < PyStr.len s.
Proof.
  unfold PyStr.len. induction s as [|a s IH]; simpl; [lia|].
  destruct (Z.leb_spec 0 (PyStr.rfind c s)); [lia|].
  destruct (Ascii.eqb a c); lia.
Qed.

(** At the index [rfind] returns, the string continues with the character
    looked for. *)
Lemma rfind_drop c s :
  0 ≤ PyStr.rfind c s →
  ∃ t, PyStr.drop (Z.to_nat (PyStr.rfind c s)) s = String c t.
Proof.
  induction s as [|a s IH]; simpl; [lia|].
  destruct (Z.leb_spec 0 (PyStr.rfind c s)) as [Hr|Hr].
  - intros _. destruct (IH Hr) as [t Ht]. exists t.
    replace (Z.to_nat (PyStr.rfind c s + 1)) with (S (Z.to_nat (PyStr.rfind c s))) by lia.
    exact Ht.
  - destruct (Ascii.eqb_spec a c) as [->|]; [|lia].
    intros _. exists s. reflexivity.
Qed.

Lemma take_drop s n : PyStr.take n s +:+ PyStr.drop n s = s.
Proof.
  revert s; induction n as [|n IH]; intros [|a s]; try reflexivity.
  change (String a (PyStr.take n s +:+ PyStr.drop n s) = String a s).
  by rewrite IH.
Qed.

Lemma str_app_empty s : s +:+ "" = s.
Proof.
  induction s as [|a s IH]; [reflexivity|].
  change (String a (s +:+ "") = String a s). by rewrite IH.
Qed.

Lemma norm_index_inside i s : 0 ≤ i ≤ PyStr.len s → PyStr.norm_index i s = Z.to_nat i.
Proof.
  intros Hi. unfold PyStr.norm_index.
  destruct (Z.ltb_spec i 0); [lia|]. f_equal. lia.
Qed.

Lemma dot_splits_inside nm i :
  PurePath.dot_splits nm i = true → 0 < i < PyStr.len nm - 1.
Proof.
  unfold PurePath.dot_splits. rewrite andb_true_iff, !Z.ltb_lt. tauto.
Qed.

(** A suffix is empty or starts with a dot. *)
Lemma suffix_shape p :
  PurePath.suffix p = "" ∨ ∃ t, PurePath.suffix p = String "." t.
Proof.
  unfold PurePath.suffix.
  destruct (PurePath.dot_splits _ _) eqn:Hd; [right|by left].
  apply dot_splits_inside in Hd.
  unfold PyStr.slice_from. rewrite norm_index_inside by lia.
  apply rfind_drop. lia.
Qed.

(** A name is its stem followed by its suffix. *)
Lemma stem_suffix p : PurePath.stem p +:+ PurePath.suffix p = PurePath.name p.
Proof.
  unfold PurePath.stem, PurePath.suffix.
  destruct (PurePath.dot_splits _ _) eqn:Hd.
  - unfold PyStr.slice_to, PyStr.slice_from. apply take_drop.
  - apply str_app_empty.
Qed.

Lemma supported_effective p :
  PurePath.suffix p ∈ SUPPORT_SUFFIX ↔ PurePath.suffix p ∈ EFFECTIVE_SUFFIX.
Proof.
  unfold SUPPORT_SUFFIX, EFFECTIVE_SUFFIX.
  rewrite !elem_of_cons, !elem_of_nil.
  destruct (suffix_shape p) as [E|[t E]]; rewrite E; split; intros H;
    repeat (destruct H as [H|H]; try discriminate H; auto 10).
Qed.

(** ** Discovery *)

Lemma Entry_nested_ind (P : Entry → Prop) :
  (∀ n c, P (File n c)) →
  (∀ d es, Forall P es → P (Dir d es)) →
  ∀ e, P e.
Proof.
  intros HF HD. fix IH 1. intros [n c|d es]; [apply HF|].
  apply HD. induction es as [|e es IHes]; constructor; [apply IH|apply IHes].
Qed.

Lemma in_keep_supported root file p :
  In p (keep_supported root file) ↔
  p = root </> file ∧ PurePath.suffix p ∈ EFFECTIVE_SUFFIX.
Proof.
  unfold keep_supported. rewrite <- supported_effective.
  case_bool_decide as Hs; simpl; split.
  - intros [<-|[]]. done.
  - intros [-> _]. by left.
  - intros [].
  - intros [-> H]. done.
Qed.

Lemma in_nondirs es n : In n (nondirs es) ↔ ∃ c, In (File n c) es.
Proof.
  unfold nondirs. rewrite in_flat_map. split.
  - intros [[m c|d sub] [He Hn]]; simpl in Hn; [|done].
    destruct Hn as [<-|[]]. eauto.
  - intros [c Hc]. exists (File n c). simpl. auto.
Qed.

Lemma walk_entry_dir top d sub : walk_entry top (Dir d sub) = os_walk (top ++ [d]) sub.
Proof. reflexivity. Qed.

(** What the two loops collect from a walk: the supported files of the
    directory itself, and what they collect from the walk of each entry. *)
Lemma in_collect_os_walk top es p :
  In p (collect_supported (os_walk top es)) ↔
  (∃ n c, In (File n c) es ∧ In p (keep_supported top n)) ∨
  (∃ e, In e es ∧ In p (collect_supported (walk_entry top e))).
Proof.
  unfold os_walk, collect_supported at 1. simpl. rewrite in_app_iff.
  fold (collect_supported (flat_map (walk_entry top) es)).
  assert (Hfiles : In p (flat_map (keep_supported top) (nondirs es)) ↔
            ∃ n c, In (File n c) es ∧ In p (keep_supported top n)).
  { rewrite in_flat_map. split.
    - intros (n & Hn & Hp). apply in_nondirs in Hn as [c Hc]. eauto.
    - intros (n & c & Hc & Hp). exists n. split; [|done]. apply in_nondirs; eauto. }
  assert (Hdirs : In p (collect_supported (flat_map (walk_entry top) es)) ↔
            ∃ e, In e es ∧ In p (collect_supported (walk_entry top e))).
  { unfold collect_supported. rewrite in_flat_map. split.
    - intros (t & Ht & Hp). apply in_flat_map in Ht as (e & He & Ht).
      exists e. split; [done|]. apply in_flat_map; eauto.
    - intros (e & He & Hp). apply in_flat_map in Hp as (t & Ht & Hp).
      exists t. split; [|done]. apply in_flat_map; eauto. }
  tauto.
Qed.

(** The files of one entry that have an effective suffix are the entry
    itself, when it is a file the filter keeps, or are collected from its
    walk, when it is a directory. *)
Definition entry_collected (e : Entry) : Prop :=
  ∀ top p,
    In p (entry_files top e) ∧ PurePath.suffix p ∈ EFFECTIVE_SUFFIX ↔
    (∃ n c, e = File n c ∧ In p (keep_supported top n)) ∨
    In p (collect_supported (walk_entry top e)).

Lemma tree_collected es top p :
  Forall entry_collected es →
  In p (tree_files top es) ∧ PurePath.suffix p ∈ EFFECTIVE_SUFFIX ↔
  In p (collect_supported (os_walk top es)).
Proof.
  intros Hes. rewrite Forall_forall in Hes.
  rewrite in_collect_os_walk. unfold tree_files. rewrite in_flat_map. split.
  - intros [(e & He & Hp) Hs].
    destruct (proj1 (Hes e (proj2 (list_elem_of_In _ _) He) top p) (conj Hp Hs))
      as [(n & c & -> & Hk)|Hw]; [left|right]; eauto.
  - intros [(n & c & He & Hk)|(e & He & Hw)].
    + destruct (proj2 (Hes _ (proj2 (list_elem_of_In _ _) He) top p)) as [Hp Hs].
      { left; eauto. }
      eauto.
    + destruct (proj2 (Hes _ (proj2 (list_elem_of_In _ _) He) top p)) as [Hp Hs].
      { by right. }
      eauto.
Qed.

Lemma every_entry_collected e : entry_collected e.
Proof.
  induction e as [n c|d sub IH] using Entry_nested_ind; intros top p.
  - simpl. split.
    + intros [[<-|[]] Hs]. left. exists n, c. rewrite in_keep_supported. done.
    + intros [(n' & c' & [= <- <-] & Hk)|[]].
      apply in_keep_supported in Hk as [-> Hs]. split; [by left|done].
  - rewrite walk_entry_dir, <- (tree_collected sub (top ++ [d]) p IH). simpl.
    unfold tree_files. split; [by right|].
    intros [(n & c & [=] & _)|H]. done.
Qed.

(** Discovery returns the files of the tree, at any depth, whose suffix is
    in [EFFECTIVE_SUFFIX], and no other path. *)
Lemma get_all_files_spec tables p :
  In p (get_all_files tables) ↔
  In p (tree_files IMAGE_DIR tables) ∧ PurePath.suffix p ∈ EFFECTIVE_SUFFIX.
Proof.
  unfold get_all_files. symmetry. apply tree_collected.
  apply Forall_forall. intros e _. apply every_entry_collected.
Qed.

Lemma get_all_files_never_bmp tables p :
  In p (get_all_files tables) → PurePath.suffix p ≠ ".bmp".
Proof.
  intros Hp%get_all_files_spec. destruct Hp as [_ Hs]. intros E. rewrite E in Hs.
  unfold EFFECTIVE_SUFFIX in Hs. rewrite !elem_of_cons, elem_of_nil in Hs.
  repeat (destruct Hs as [Hs|Hs]; try discriminate Hs). done.
Qed.

(** C1, at the input where it fails.  A directory [tables] that holds
    [scan.bmp] and [scan.png]: both are files of the tree, the suffix of the
    first is [.bmp], which the claim has in the allow-list, and discovery
    returns the second only. *)
Theorem get_all_files_skips_bmp :
  tree_files IMAGE_DIR [File "scan.bmp" []; File "scan.png" []]
    = [["tables"; "scan.bmp"]; ["tables"; "scan.png"]] ∧
  PurePath.suffix ["tables"; "scan.bmp"] = ".bmp" ∧
  get_all_files [File "scan.bmp" []; File "scan.png" []] = [["tables"; "scan.png"]].
Proof. vm_compute. done. Qed.

(** ** Output naming *)

Lemma str_length_app s t : String.length (s +:+ t) = (String.length s + String.length t)%nat.
Proof.
  induction s as [|a s IH]; [reflexivity|].
  change (S (String.length (s +:+ t)) = S (String.length s + String.length t)).
  by rewrite IH.
Qed.

Lemma str_app_inj_r s1 s2 t : s1 +:+ t = s2 +:+ t → s1 = s2.
Proof.
  revert s2. induction s1 as [|a s1 IH]; intros [|b s2] E; [done| | |].
  - apply (f_equal String.length) in E.
    change (String.length t = S (String.length (s2 +:+ t))) in E.
    rewrite str_length_app in E. lia.
  - apply (f_equal String.length) in E.
    change (S (String.length (s1 +:+ t)) = String.length t) in E.
    rewrite str_length_app in E. lia.
  - change (String a (s1 +:+ t) = String b (s2 +:+ t)) in E.
    injection E as -> E. f_equal. by apply IH.
Qed.

Lemma name_snoc d n : PurePath.name (d ++ [n]) = n.
Proof. unfold PurePath.name. apply last_last. Qed.

(** Suffix and stem look at the final component only. *)
Lemma suffix_by_name p q : PurePath.name p = PurePath.name q → PurePath.suffix p = PurePath.suffix q.
Proof. unfold PurePath.suffix. by intros ->. Qed.

Lemma stem_by_name p q : PurePath.name p = PurePath.name q → PurePath.stem p = PurePath.stem q.
Proof. unfold PurePath.stem. by intros ->. Qed.

(** A stem that is a proper component with no suffix of its own: the file
    has one extension, as [a.png] has and [a.b.png] has not. *)
Definition plain_stem (file : Path) : Prop :=
  PurePath.stem file ≠ "" ∧ PurePath.stem file ≠ "." ∧
  PurePath.suffix [PurePath.stem file] = "".

Lemma truediv_component p seg : seg ≠ "" → seg ≠ "." → p </> seg = p ++ [seg].
Proof.
  intros H1 H2. unfold PurePath.truediv. case_bool_decide as H; [|done].
  by destruct H.
Qed.

Lemma excel_path_plain file :
  plain_stem file →
  excel_path file = Ret (OUTPUT ++ [PurePath.stem file +:+ ".xlsx"]).
Proof.
  intros (H1 & H2 & H3). unfold excel_path.
  rewrite truediv_component by done.
  unfold with_suffix. simpl PyStr.contains. cbv iota.
  change (PyStr.startswith "." ".xlsx") with true.
  change (".xlsx" =? "")%string with false.
  change (".xlsx" =? ".")%string with false. cbv iota. simpl negb. simpl orb. cbv iota.
  rewrite name_snoc.
  destruct (String.eqb_spec (PurePath.stem file) ""); [done|].
  rewrite (suffix_by_name _ [PurePath.stem file]) by (by rewrite name_snoc).
  rewrite H3. reflexivity.
Qed.

(** The output path is a function of the final component of the input. *)
Lemma excel_path_by_name f1 f2 :
  PurePath.name f1 = PurePath.name f2 → excel_path f1 = excel_path f2.
Proof. intros E. unfold excel_path. by rewrite (stem_by_name f1 f2 E). Qed.

(** A file that passes the filter has a stem that is not empty. *)
Lemma supported_stem_nonempty file :
  PurePath.suffix file ∈ EFFECTIVE_SUFFIX → PurePath.stem file ≠ "".
Proof.
  unfold PurePath.suffix, PurePath.stem.
  destruct (PurePath.dot_splits _ _) eqn:Hd.
  - intros _. apply dot_splits_inside in Hd.
    unfold PyStr.slice_to. rewrite norm_index_inside by lia.
    unfold PyStr.len in Hd. revert Hd.
    generalize (PyStr.rfind "." (PurePath.name file)). intros i Hd.
    destruct (PurePath.name file) as [|a s]; [simpl in Hd; lia|].
    destruct (Z.to_nat i) eqn:En; [lia|]. done.
  - unfold EFFECTIVE_SUFFIX. rewrite !elem_of_cons, elem_of_nil.
    intros H. repeat (destruct H as [H|H]; try discriminate H). done.
Qed.

(** C2, the claim as stated fails: [tables/a.png] and [tables/sub/a.png] are
    two distinct discovered files with one output path. *)
Lemma excel_path_collision :
  get_all_files [File "a.png" []; Dir "sub" [File "a.png" []]]
    = [["tables"; "a.png"]; ["tables"; "sub"; "a.png"]] ∧
  ["tables"; "a.png"] ≠ ["tables"; "sub"; "a.png"] ∧
  excel_path ["tables"; "a.png"] = Ret ["output"; "a.xlsx"] ∧
  excel_path ["tables"; "sub"; "a.png"] = Ret ["output"; "a.xlsx"].
Proof. vm_compute. repeat split; discriminate. Qed.

(** C2, amended.  For discovered files whose stems have no suffix of their
    own and are not ["."], the output path is the stem with [.xlsx] inside
    the output directory; it is the same for two files of the same name in
    different directories; and two such files have the same output path
    exactly when they have the same stem. *)
Theorem excel_path_of_stem tables f1 f2 :
  In f1 (get_all_files tables) → In f2 (get_all_files tables) →
  PurePath.stem f1 ≠ "." → PurePath.suffix [PurePath.stem f1] = "" →
  PurePath.stem f2 ≠ "." → PurePath.suffix [PurePath.stem f2] = "" →
  excel_path f1 = Ret (OUTPUT ++ [PurePath.stem f1 +:+ ".xlsx"]) ∧
  (PurePath.name f1 = PurePath.name f2 → excel_path f1 = excel_path f2) ∧
  (excel_path f1 = excel_path f2 ↔ PurePath.stem f1 = PurePath.stem f2).
Proof.
  intros [_ S1]%get_all_files_spec [_ S2]%get_all_files_spec D1 P1 D2 P2.
  apply supported_stem_nonempty in S1, S2.
  assert (E1 := excel_path_plain f1 (conj S1 (conj D1 P1))).
  assert (E2 := excel_path_plain f2 (conj S2 (conj D2 P2))).
  split; [done|]. split; [apply excel_path_by_name|].
  rewrite E1, E2. split.
  - intros [= E]. by apply str_app_inj_r in E.
  - by intros ->.
Qed.

Lemma excel_path_of_stem_witness :
  let tables := [File "a.png" []; File "b.pdf" []; Dir "sub" [File "a.png" []]] in
  let f1 := ["tables"; "a.png"] in
  let f2 := ["tables"; "b.pdf"] in
  (In f1 (get_all_files tables) ∧ In f2 (get_all_files tables)) ∧
  excel_path f1 = Ret (OUTPUT ++ [PurePath.stem f1 +:+ ".xlsx"]) ∧
  (PurePath.name f1 = PurePath.name f2 → excel_path f1 = excel_path f2) ∧
  (excel_path f1 = excel_path f2 ↔ PurePath.stem f1 = PurePath.stem f2).
Proof.
  split; [vm_compute; auto|].
  apply (excel_path_of_stem [File "a.png" []; File "b.pdf" []; Dir "sub" [File "a.png" []]]);
    vm_compute; auto; discriminate.
Defined.

(** ** base64 *)

Lemma b64encode_length_upto n : ∀ s,
  (length s ≤ n)%nat →
  length (base64.b64encode s) = (4 * ((length s + 2) / 3))%nat.
Proof.
  induction n as [n IH] using lt_wf_ind.
  intros [|a [|b [|c rest]]] Hn; try reflexivity.
  cbn [base64.b64encode length]. cbn [length] in Hn.
  rewrite (IH (length rest)) by lia.
  replace (S (S (S (length rest))) + 2)%nat with ((length rest + 2) + 1 * 3)%nat by lia.
  rewrite Nat.div_add by lia. lia.
Qed.

(** The encoding of [n] bytes has [4 * ceil(n / 3)] characters. *)
Lemma b64encode_length s :
  length (base64.b64encode s) = (4 * ((length s + 2) / 3))%nat.
Proof. by apply (b64encode_length_upto (length s)). Qed.

Lemma b64encode_nil_iff s : base64.b64encode s = [] ↔ s = [].
Proof. destruct s as [|a [|b [|c rest]]]; simpl; split; intros; done. Qed.

Lemma string_of_list_byte_nil_iff s : string_of_list_byte s = "" ↔ s = [].
Proof. destruct s; simpl; split; intros; done. Qed.

Lemma encoded_text_empty_iff content :
  (string_of_list_byte (base64.b64encode content) =? "")%string = true ↔ content = [].
Proof. by rewrite String.eqb_eq, string_of_list_byte_nil_iff, b64encode_nil_iff. Qed.

(** ** Running the encoder and the client *)

Section Run.
Context `{lib : Base64Lib}.

Lemma load_file_run file w :
  _load_file file w =
  match disk w !! file with
  | None => (Raise (OSError file), w)
  | Some content =>
      if MAX_SIZE <? encoded_size content
      then (Ret "", push_log (too_large_record (encoded_size content)) w)
      else (Ret (encoded_text content), w)
  end.
Proof.
  unfold _load_file, mbind, Py_bind, read_bytes.
  destruct (disk w !! file) as [content|]; [|done].
  unfold encoded_size. by destruct (MAX_SIZE <? _).
Qed.

Lemma load_file_accepted file w content :
  disk w !! file = Some content → encoded_size content ≤ MAX_SIZE →
  _load_file file w = (Ret (encoded_text content), w).
Proof.
  intros Hf Hs. rewrite load_file_run, Hf.
  by destruct (Z.ltb_spec MAX_SIZE (encoded_size content)); [lia|].
Qed.

Lemma load_file_too_large file w content :
  disk w !! file = Some content → MAX_SIZE < encoded_size content →
  _load_file file w =
    (Ret "", push_log (too_large_record (encoded_size content)) w).
Proof.
  intros Hf Hs. rewrite load_file_run, Hf.
  by destruct (Z.ltb_spec MAX_SIZE (encoded_size content)); [|lia].
Qed.

(** No payload: the client returns [b''] and leaves the world as the
    encoder left it. *)
Lemma get_ocr_result_no_payload client file pdf_page w w' :
  _load_file file w = (Ret "", w') →
  get_ocr_result client file pdf_page w = (Ret [], w').
Proof. intros Hl. unfold get_ocr_result, mbind, Py_bind. by rewrite Hl. Qed.

(** An accepted payload: the parameters are logged, the request is sent,
    and the answer of the provider decides the rest. *)
Lemma get_ocr_result_accepted client file pdf_page w content :
  disk w !! file = Some content → accepted content →
  get_ocr_result client file pdf_page w =
    let req := request_params (encoded_text content) file pdf_page in
    let w1 := push_call req (push_log (params_record req) w) in
    match client (length (calls w)) req with
    | Ret response =>
        match b64decode (Data response) with
        | Ret data => (Ret data, push_log (result_record response) w1)
        | Raise (TencentCloudSDKException code message) =>
            (Ret [], push_log (sdk_error_record code message) w1)
        | Raise e => (Raise e, w1)
        end
    | Raise (TencentCloudSDKException code message) =>
        (Ret [], push_log (sdk_error_record code message) w1)
    | Raise e => (Raise e, w1)
    end.
Proof.
  intros Hf [Hne Hs]. unfold get_ocr_result, mbind at 1, Py_bind at 1.
  rewrite (load_file_accepted _ _ _ Hf Hs).
  destruct (String.eqb _ _) eqn:E.
  { apply encoded_text_empty_iff in E. done. }
  cbv zeta.
  unfold try_except, mbind, Py_bind, log, RecognizeTableOCR, lift, mret, Py_ret.
  cbn [calls push_log].
  destruct (client _ _) as [response|e].
  - destruct (b64decode _) as [data|e]; [done|]. by destruct e.
  - by destruct e.
Qed.

End Run.

(** ** The request *)

Lemma request_params_content content file pdf_page :
  request_params content file pdf_page !! "ImageBase64" = Some (JStr content).
Proof.
  unfold request_params.
  destruct (String.eqb _ _); destruct pdf_page as [z|]; [destruct (truthy _)| |destruct (truthy _)|];
    by simplify_map_eq.
Qed.

Lemma request_params_is_pdf content file pdf_page :
  request_params content file pdf_page !! "IsPdf" =
  if String.eqb (PurePath.suffix file) ".pdf" then Some (JBool true) else None.
Proof.
  unfold request_params.
  destruct (String.eqb _ _); destruct pdf_page as [z|]; [destruct (truthy _)| |destruct (truthy _)|];
    by simplify_map_eq.
Qed.

Lemma request_params_page content file pdf_page :
  request_params content file pdf_page !! "PdfPageNumber" =
  match pdf_page with
  | Some z => if z =? 0 then None else Some (JInt z)
  | None => None
  end.
Proof.
  unfold request_params, truthy.
  destruct (String.eqb _ _); destruct pdf_page as [z|]; [destruct (z =? 0)| |destruct (z =? 0)|];
    by simplify_map_eq.
Qed.

Section Client.
Context `{lib : Base64Lib}.

(** A call with an accepted payload sends one request, whatever the
    provider answers. *)
Lemma get_ocr_result_accepted_calls client file pdf_page w content :
  disk w !! file = Some content → accepted content →
  calls (get_ocr_result client file pdf_page w).2 =
    calls w ++ [request_params (encoded_text content) file pdf_page].
Proof.
  intros Hf Ha. rewrite (get_ocr_result_accepted _ _ _ _ _ Hf Ha). cbv zeta.
  destruct (client _ _) as [response|e].
  - destruct (b64decode _) as [data|e]; [done|]. by destruct e.
  - by destruct e.
Qed.

End Client.

(** ** The orchestrator, one file at a time *)

Lemma excel_path_total file : ∃ excel, excel_path file = Ret excel.
Proof.
  unfold excel_path, with_suffix.
  change (PyStr.contains "/" ".xlsx") with false.
  change (PyStr.startswith "." ".xlsx") with true.
  change (".xlsx" =? "")%string with false.
  change (".xlsx" =? ".")%string with false. cbn [negb andb orb].
  destruct (String.eqb_spec (PurePath.name (OUTPUT </> PurePath.stem file)) "") as [E|_]; [|eauto].
  exfalso. revert E. unfold PurePath.truediv. case_bool_decide as Hs.
  - discriminate.
  - rewrite name_snoc. intros E. apply Hs. by left.
Qed.

Section Body.
Context `{lib : Base64Lib}.

Lemma collect_data_body_run client file w :
  collect_data_body client file w =
  match get_ocr_result client file None (push_log (processing_record file) w) with
  | (Ret result, w') =>
      match excel_path file with
      | Ret excel => (Ret tt, push_log (written_record file) (push_write excel result w'))
      | Raise e => (Raise e, w')
      end
  | (Raise e, w') => (Raise e, w')
  end.
Proof.
  unfold collect_data_body, mbind, Py_bind, log at 1. cbn [fst snd].
  change (mkLog "collect_data" INFO _ [OStr (PurePath.stem file)]) with (processing_record file).
  destruct (get_ocr_result _ _ _ _) as [[result|e] w']; [|done].
  unfold lift. fold (excel_path file). by destruct (excel_path file).
Qed.

End Body.

(** C3.  A file whose encoding has exactly [MAX_SIZE] characters is
    returned by the encoder and its request is sent, with the encoding as
    [ImageBase64].  A file whose encoding is longer makes the encoder log an
    error that carries the size in MiB and return the empty string; the
    client then returns [b''] without raising and without sending anything:
    the world it leaves differs from the one it found by that log record
    only.  The orchestrator writes an empty output for the file and returns
    normally, so the loop goes on. *)
Theorem load_file_size_boundary `{lib : Base64Lib} client file pdf_page w content :
  disk w !! file = Some content →
  (encoded_size content = MAX_SIZE →
     _load_file file w = (Ret (encoded_text content), w) ∧
     ∃ req, calls (get_ocr_result client file pdf_page w).2 = calls w ++ [req] ∧
            req !! "ImageBase64" = Some (JStr (encoded_text content))) ∧
  (MAX_SIZE < encoded_size content →
     let record := mkLog "_load_file" ERROR
                     (OFStr "base64加密后的文件大小超过限定值({}MB): {}"
                            [(MAX_SIZE # 1048576)%Q; (encoded_size content # 1048576)%Q]) [] in
     _load_file file w = (Ret "", push_log record w) ∧
     get_ocr_result client file pdf_page w = (Ret [], push_log record w) ∧
     calls (push_log record w) = calls w ∧
     ∃ excel w',
       excel_path file = Ret excel ∧
       collect_data_body client file w = (Ret tt, w') ∧
       writes w' = writes w ++ [(excel, [])] ∧
       calls w' = calls w).
Proof.
  intros Hf. split.
  - intros Hs. split; [apply load_file_accepted; [done|lia]|].
    assert (Ha : accepted content).
    { split; [|lia]. intros ->. vm_compute in Hs. discriminate. }
    eexists. split; [by apply get_ocr_result_accepted_calls|].
    apply request_params_content.
  - intros Hs record. assert (Hl := load_file_too_large _ _ _ Hf Hs).
    split; [exact Hl|]. split; [by apply get_ocr_result_no_payload|]. split; [done|].
    destruct (excel_path_total file) as [excel He]. exists excel.
    rewrite collect_data_body_run.
    rewrite (get_ocr_result_no_payload _ _ _ _ _
               (load_file_too_large file (push_log _ w) content Hf Hs)), He.
    eexists. split; [done|]. split; [reflexivity|]. done.
Qed.

Lemma encoded_size_by_length s :
  encoded_size s = 4 * ((len_bytes s + 2) / 3).
Proof.
  unfold encoded_size, len_bytes. rewrite b64encode_length.
  by rewrite Nat2Z.inj_mul, Nat2Z.inj_div, Nat2Z.inj_add.
Qed.

Lemma len_bytes_cons a s : len_bytes (a :: s) = len_bytes s + 1.
Proof. unfold len_bytes. cbn [length]. lia. Qed.

Lemma len_bytes_replicate n a : 0 ≤ n → len_bytes (replicate (Z.to_nat n) a) = n.
Proof. intros Hn. unfold len_bytes. rewrite length_replicate. lia. Qed.

Lemma largest_content_size : encoded_size largest_content = MAX_SIZE.
Proof.
  rewrite encoded_size_by_length. unfold largest_content.
  rewrite len_bytes_replicate by lia. reflexivity.
Qed.

Lemma oversize_content_size : encoded_size oversize_content = MAX_SIZE + 4.
Proof.
  rewrite encoded_size_by_length. unfold oversize_content, largest_content.
  rewrite len_bytes_cons, len_bytes_replicate by lia. reflexivity.
Qed.

Lemma load_file_size_boundary_witness :
  let big := ["tables"; "big.png"] in
  let huge := ["tables"; "huge.png"] in
  let w := initial_world {[ big := largest_content; huge := oversize_content ]} in
  let record := mkLog "_load_file" ERROR
                  (OFStr "base64加密后的文件大小超过限定值({}MB): {}"
                         [(MAX_SIZE # 1048576)%Q; (encoded_size oversize_content # 1048576)%Q]) [] in
  (disk w !! big = Some largest_content ∧ encoded_size largest_content = MAX_SIZE ∧
   disk w !! huge = Some oversize_content ∧ MAX_SIZE < encoded_size oversize_content) ∧
  (_load_file big w = (Ret (encoded_text largest_content), w) ∧
   ∃ req, calls (get_ocr_result (lib := sample_base64) answering_client big None w).2
            = calls w ++ [req] ∧
          req !! "ImageBase64" = Some (JStr (encoded_text largest_content))) ∧
  (_load_file huge w = (Ret "", push_log record w) ∧
   get_ocr_result (lib := sample_base64) answering_client huge None w
     = (Ret [], push_log record w) ∧
   calls (push_log record w) = calls w ∧
   ∃ excel w',
     excel_path huge = Ret excel ∧
     collect_data_body (lib := sample_base64) answering_client huge w = (Ret tt, w') ∧
     writes w' = writes w ++ [(excel, [])] ∧
     calls w' = calls w).
Proof.
  intros big huge w record.
  assert (Hbig : disk w !! big = Some largest_content) by apply lookup_insert_eq.
  assert (Hhuge : disk w !! huge = Some oversize_content).
  { unfold w, initial_world, disk. rewrite lookup_insert_ne by discriminate.
    apply lookup_singleton_eq. }
  assert (Hover : MAX_SIZE < encoded_size oversize_content).
  { rewrite oversize_content_size. lia. }
  split; [exact (conj Hbig (conj largest_content_size (conj Hhuge Hover)))|]. split.
  - exact (proj1 (load_file_size_boundary (lib := sample_base64) answering_client big None w
                    largest_content Hbig) largest_content_size).
  - exact (proj2 (load_file_size_boundary (lib := sample_base64) answering_client huge None w
                    oversize_content Hhuge) Hover).
Defined.

(** C4.  When the provider fails the call with its own exception, the
    client logs the exception as an error and returns [b''] instead of
    raising; the orchestrator then writes the empty result for the file
    and returns normally, so the loop goes on. *)
Theorem sdk_failure_is_absorbed `{lib : Base64Lib} client file w content code message :
  disk w !! file = Some content → accepted content →
  (∀ req, client (length (calls w)) req = Raise (TencentCloudSDKException code message)) →
  (∀ pdf_page, ∃ w',
     get_ocr_result client file pdf_page w = (Ret [], w') ∧
     logs w' = logs w ++
       [params_record (request_params (encoded_text content) file pdf_page);
        mkLog "get_ocr_result" ERROR (OExc (TencentCloudSDKException code message)) []]) ∧
  (∃ excel w', excel_path file = Ret excel ∧
     collect_data_body client file w = (Ret tt, w') ∧
     writes w' = writes w ++ [(excel, [])]).
Proof.
  intros Hf Ha Hc. split.
  - intros pdf_page. rewrite (get_ocr_result_accepted _ _ _ _ _ Hf Ha). cbv zeta. rewrite Hc.
    eexists. split; [reflexivity|]. cbn. by rewrite <- app_assoc.
  - destruct (excel_path_total file) as [excel He]. exists excel.
    rewrite collect_data_body_run.
    rewrite (get_ocr_result_accepted _ _ _ (push_log _ w) _ Hf Ha). cbv zeta.
    cbn [calls push_log]. rewrite Hc, He. eexists. split; [done|]. split; [reflexivity|]. done.
Qed.

Lemma sdk_failure_is_absorbed_witness :
  let file := ["tables"; "a.png"] in
  let w := initial_world {[ file := ["h"%byte; "i"%byte] ]} in
  (disk w !! file = Some ["h"%byte; "i"%byte] ∧ accepted ["h"%byte; "i"%byte]) ∧
  (∀ pdf_page, ∃ w',
     get_ocr_result (lib := sample_base64) failing_client file pdf_page w = (Ret [], w') ∧
     logs w' = logs w ++
       [params_record (request_params (encoded_text ["h"%byte; "i"%byte]) file pdf_page);
        mkLog "get_ocr_result" ERROR
              (OExc (TencentCloudSDKException "AuthFailure" "signature rejected")) []]) ∧
  (∃ excel w', excel_path file = Ret excel ∧
     collect_data_body (lib := sample_base64) failing_client file w = (Ret tt, w') ∧
     writes w' = writes w ++ [(excel, [])]).
Proof.
  intros file w.
  assert (Hf : disk w !! file = Some ["h"%byte; "i"%byte]) by apply lookup_singleton_eq.
  assert (Ha : accepted ["h"%byte; "i"%byte]) by (split; [discriminate|vm_compute; discriminate]).
  split; [done|].
  apply (sdk_failure_is_absorbed (lib := sample_base64) failing_client file w _
           "AuthFailure" "signature rejected" Hf Ha).
  reflexivity.
Defined.

(** C6.  The request sent for an accepted payload has [IsPdf], set to
    [True], exactly when the suffix of the file is [.pdf]; for any other
    suffix the key is absent. *)
Theorem is_pdf_iff_pdf_suffix `{lib : Base64Lib} client file pdf_page w content :
  disk w !! file = Some content → accepted content →
  ∃ req,
    calls (get_ocr_result client file pdf_page w).2 = calls w ++ [req] ∧
    (req !! "IsPdf" = Some (JBool true) ↔ PurePath.suffix file = ".pdf") ∧
    (PurePath.suffix file ≠ ".pdf" ↔ req !! "IsPdf" = None).
Proof.
  intros Hf Ha. eexists. split; [by apply get_ocr_result_accepted_calls|].
  rewrite request_params_is_pdf.
  destruct (String.eqb_spec (PurePath.suffix file) ".pdf") as [E|E]; split; split; done.
Qed.

Lemma is_pdf_iff_pdf_suffix_witness :
  let file := ["tables"; "b.pdf"] in
  let w := initial_world {[ file := ["h"%byte; "i"%byte] ]} in
  (disk w !! file = Some ["h"%byte; "i"%byte] ∧ accepted ["h"%byte; "i"%byte]) ∧
  ∃ req,
    calls (get_ocr_result (lib := sample_base64) answering_client file None w).2
      = calls w ++ [req] ∧
    (req !! "IsPdf" = Some (JBool true) ↔ PurePath.suffix file = ".pdf") ∧
    (PurePath.suffix file ≠ ".pdf" ↔ req !! "IsPdf" = None).
Proof.
  intros file w.
  assert (Hf : disk w !! file = Some ["h"%byte; "i"%byte]) by apply lookup_singleton_eq.
  assert (Ha : accepted ["h"%byte; "i"%byte]) by (split; [discriminate|vm_compute; discriminate]).
  split; [done|].
  exact (is_pdf_iff_pdf_suffix (lib := sample_base64) answering_client file None w _ Hf Ha).
Defined.

(** C7.  The request sent for an accepted payload has [PdfPageNumber]
    exactly when a page number is given and is not zero, and then it is
    that number; with no page number, or zero, the key is absent. *)
Theorem page_number_iff_given `{lib : Base64Lib} client file pdf_page w content :
  disk w !! file = Some content → accepted content →
  ∃ req,
    calls (get_ocr_result client file pdf_page w).2 = calls w ++ [req] ∧
    (∀ z, req !! "PdfPageNumber" = Some (JInt z) ↔ pdf_page = Some z ∧ z ≠ 0) ∧
    (is_Some (req !! "PdfPageNumber") ↔ ∃ z, pdf_page = Some z ∧ z ≠ 0) ∧
    (pdf_page = None ∨ pdf_page = Some 0 → req !! "PdfPageNumber" = None).
Proof.
  intros Hf Ha. eexists. split; [by apply get_ocr_result_accepted_calls|].
  rewrite request_params_page.
  destruct pdf_page as [z|]; [destruct (Z.eqb_spec z 0) as [->|Hz]|].
  - split; [|split].
    + intros z. split; [done|]. by intros [[= <-] Hz].
    + split; [by intros [? [=]]|]. by intros (z & [= <-] & Hz).
    + done.
  - split; [|split].
    + intros z'. split; [by intros [= <-]|]. by intros [[= <-] _].
    + split; intros _; eauto.
    + intros [[=]|[= ->]]. done.
  - split; [|split].
    + intros z. split; [done|]. by intros [[=] _].
    + split; [by intros [? [=]]|]. by intros (z & [=] & _).
    + done.
Qed.

Lemma page_number_iff_given_witness :
  let file := ["tables"; "b.pdf"] in
  let w := initial_world {[ file := ["h"%byte; "i"%byte] ]} in
  (disk w !! file = Some ["h"%byte; "i"%byte] ∧ accepted ["h"%byte; "i"%byte]) ∧
  ∃ req,
    calls (get_ocr_result (lib := sample_base64) answering_client file (Some 2) w).2
      = calls w ++ [req] ∧
    (∀ z, req !! "PdfPageNumber" = Some (JInt z) ↔ Some 2 = Some z ∧ z ≠ 0) ∧
    (is_Some (req !! "PdfPageNumber") ↔ ∃ z, Some 2 = Some z ∧ z ≠ 0) ∧
    (Some 2 = None ∨ Some 2 = Some 0 → req !! "PdfPageNumber" = None).
Proof.
  intros file w.
  assert (Hf : disk w !! file = Some ["h"%byte; "i"%byte]) by apply lookup_singleton_eq.
  assert (Ha : accepted ["h"%byte; "i"%byte]) by (split; [discriminate|vm_compute; discriminate]).
  split; [done|].
  exact (page_number_iff_given (lib := sample_base64) answering_client file (Some 2) w _ Hf Ha).
Defined.

(** ** What a call and an iteration amount to *)

Lemma extend_nil w : extend [] [] w = w.
Proof. destruct w. unfold extend. cbn. by rewrite !app_nil_r. Qed.

Section Summary.
Context `{lib : Base64Lib}.

Lemma get_ocr_result_summary client file pdf_page w :
  get_ocr_result client file pdf_page w =
  let '(r, cs, ls) :=
    recognition (client (length (calls w))) (disk w !! file) file pdf_page in
  (r, extend ls cs w).
Proof.
  unfold recognition.
  destruct (disk w !! file) as [content|] eqn:Hf.
  - destruct (Z.ltb_spec MAX_SIZE (encoded_size content)) as [Hs|Hs].
    { rewrite (get_ocr_result_no_payload _ _ _ _ _ (load_file_too_large _ _ _ Hf Hs)).
      unfold extend, push_log. by rewrite app_nil_r. }
    destruct (String.eqb (encoded_text content) "") eqn:E.
    { rewrite (get_ocr_result_no_payload _ _ _ w w), extend_nil; [done|].
      rewrite (load_file_accepted _ _ _ Hf Hs).
      apply String.eqb_eq in E. by rewrite E. }
    assert (Ha : accepted content).
    { split; [|done]. intros ->. discriminate E. }
    rewrite (get_ocr_result_accepted _ _ _ _ _ Hf Ha). cbv zeta.
    destruct (client _ _) as [response|e].
    + destruct (b64decode _) as [data|e].
      * unfold extend, push_log, push_call. cbn. by rewrite <- app_assoc.
      * destruct e; unfold extend, push_log, push_call; cbn; by rewrite <- ?app_assoc.
    + destruct e; unfold extend, push_log, push_call; cbn; by rewrite <- ?app_assoc.
  - unfold get_ocr_result, mbind, Py_bind. rewrite load_file_run, Hf. by rewrite extend_nil.
Qed.

(** One iteration: the records, requests and the file it adds. *)
Lemma collect_data_body_summary client file w :
  collect_data_body client file w =
  let '(r, cs, ls) :=
    recognition (client (length (calls w))) (disk w !! file) file None in
  match r with
  | Ret data =>
      match excel_path file with
      | Ret excel =>
          (Ret tt, push_log (written_record file)
                     (push_write excel data (extend (processing_record file :: ls) cs w)))
      | Raise e => (Raise e, extend (processing_record file :: ls) cs w)
      end
  | Raise e => (Raise e, extend (processing_record file :: ls) cs w)
  end.
Proof.
  rewrite collect_data_body_run, get_ocr_result_summary. cbn [push_log calls disk].
  destruct (recognition _ _ _ _) as [[r cs] ls].
  assert (E : extend ls cs (push_log (processing_record file) w)
              = extend (processing_record file :: ls) cs w).
  { unfold extend, push_log. cbn. by rewrite <- app_assoc. }
  rewrite E. by destruct r.
Qed.

End Summary.

(** C10.  For a file of no bytes the encoder returns the empty string and
    logs nothing; the client takes it for no payload and returns [b'']
    without sending or logging anything; and the orchestrator writes an
    empty output for the file, the same artifact a failed file gets.  The
    iteration adds its two progress records and no error record. *)
Theorem empty_file_gets_empty_output `{lib : Base64Lib} client file w :
  disk w !! file = Some [] →
  _load_file file w = (Ret "", w) ∧
  (∀ pdf_page, get_ocr_result client file pdf_page w = (Ret [], w)) ∧
  ∃ excel w',
    excel_path file = Ret excel ∧
    collect_data_body client file w = (Ret tt, w') ∧
    writes w' = writes w ++ [(excel, [])] ∧
    disk w' = <[excel := []]> (disk w) ∧
    calls w' = calls w ∧
    logs w' = logs w ++ [processing_record file; written_record file] ∧
    levelname (processing_record file) = INFO ∧ levelname (written_record file) = INFO.
Proof.
  intros Hf.
  assert (Hl : ∀ v, disk v = disk w → _load_file file v = (Ret "", v)).
  { intros v Hv. rewrite (load_file_accepted file v []); [done|by rewrite Hv|done]. }
  split; [by apply Hl|]. split.
  - intros pdf_page. apply get_ocr_result_no_payload. by apply Hl.
  - destruct (excel_path_total file) as [excel He]. exists excel.
    rewrite collect_data_body_run.
    rewrite (get_ocr_result_no_payload _ _ _ _ _ (Hl (push_log _ w) eq_refl)), He.
    eexists. split; [done|]. split; [reflexivity|]. cbn.
    by rewrite <- app_assoc.
Qed.

Lemma empty_file_gets_empty_output_witness :
  let file := ["tables"; "blank.png"] in
  let w := initial_world {[ file := [] ]} in
  disk w !! file = Some [] ∧
  _load_file file w = (Ret "", w) ∧
  (∀ pdf_page, get_ocr_result (lib := sample_base64) answering_client file pdf_page w
               = (Ret [], w)) ∧
  ∃ excel w',
    excel_path file = Ret excel ∧
    collect_data_body (lib := sample_base64) answering_client file w = (Ret tt, w') ∧
    writes w' = writes w ++ [(excel, [])] ∧
    disk w' = <[excel := []]> (disk w) ∧
    calls w' = calls w ∧
    logs w' = logs w ++ [processing_record file; written_record file] ∧
    levelname (processing_record file) = INFO ∧ levelname (written_record file) = INFO.
Proof.
  intros file w.
  assert (Hf : disk w !! file = Some []) by apply lookup_singleton_eq.
  split; [exact Hf|].
  exact (empty_file_gets_empty_output (lib := sample_base64) answering_client file w Hf).
Defined.

(** ** The batch *)

Section Batch.
Context `{lib : Base64Lib}.

Lemma collect_data_run client files w :
  collect_data client files w =
  for_each files (collect_data_body client) (push_dir OUTPUT (push_log start_record w)).
Proof. reflexivity. Qed.

Lemma for_each_cons {A} (x : A) xs body w :
  for_each (x :: xs) body w =
  match body x w with
  | (Ret _, w') => for_each xs body w'
  | (Raise e, w') => (Raise e, w')
  end.
Proof. reflexivity. Qed.

(** The requests one call may send: none, or one built by
    [request_params] for the file and the page number given. *)
Lemma recognition_sent answer content file pdf_page :
  (recognition answer content file pdf_page).1.2 = [] ∨
  ∃ text, (recognition answer content file pdf_page).1.2 = [request_params text file pdf_page].
Proof.
  unfold recognition. destruct content as [content|]; [|by left].
  destruct (MAX_SIZE <? _); [by left|].
  destruct (String.eqb _ _); [by left|]. right. exists (encoded_text content). cbv zeta.
  destruct (answer _) as [response|e].
  - destruct (b64decode _) as [data|e]; [done|]. by destruct e.
  - by destruct e.
Qed.

Lemma collect_data_body_calls client file w :
  calls (collect_data_body client file w).2 =
  calls w ++ (recognition (client (length (calls w))) (disk w !! file) file None).1.2.
Proof.
  rewrite collect_data_body_summary.
  destruct (recognition _ _ _ _) as [[r cs] ls]. cbn [fst snd].
  destruct r; [destruct (excel_path file)|]; reflexivity.
Qed.

Lemma for_each_body_calls client (P : Request → Prop) files :
  (∀ file w, Forall P (recognition (client (length (calls w))) (disk w !! file) file None).1.2) →
  ∀ w, ∃ new,
    calls (for_each files (collect_data_body client) w).2 = calls w ++ new ∧ Forall P new.
Proof.
  intros HP. induction files as [|file files IH]; intros w.
  - exists []. split; [by rewrite app_nil_r|done].
  - rewrite for_each_cons.
    assert (Hc := collect_data_body_calls client file w).
    destruct (collect_data_body client file w) as [[[]|e] w1]; cbn [snd] in Hc.
    + destruct (IH w1) as (new & Hn & HPn).
      eexists. rewrite Hn, Hc, <- app_assoc. split; [done|].
      apply Forall_app; split; [apply HP|done].
    + eexists. split; [exact Hc|apply HP].
Qed.

End Batch.

(** C9.  Whatever the files are and whatever the provider answers, no
    request the orchestrator sends has [PdfPageNumber]: it calls the client
    with no page number, so every file is recognized at the page the
    provider takes by default. *)
Theorem batch_sends_no_page_number `{lib : Base64Lib} client files w :
  ∃ new,
    calls (collect_data client files w).2 = calls w ++ new ∧
    Forall (λ req, req !! "PdfPageNumber" = None) new.
Proof.
  rewrite collect_data_run.
  destruct (for_each_body_calls client (λ req, req !! "PdfPageNumber" = None) files)
    with (w := push_dir OUTPUT (push_log start_record w)) as (new & Hn & Hnew).
  - intros file v.
    destruct (recognition_sent (client (length (calls v))) (disk v !! file) file None)
      as [->|[text ->]]; [done|].
    constructor; [|done]. by rewrite request_params_page.
  - exists new. split; [exact Hn|exact Hnew].
Qed.

Section Outputs.
Context `{lib : Base64Lib}.

(** With a provider that is well behaved, a call on a file that can be read
    returns: nothing, or the decoded answer. *)
Lemma recognition_returns client n content file pdf_page :
  well_behaved client →
  ∃ data,
    (recognition (client n) (Some content) file pdf_page).1.1 = Ret data ∧
    (data = [] ∨
     ∃ req response, client n req = Ret response ∧ b64decode (Data response) = Ret data).
Proof.
  intros Hc. unfold recognition.
  destruct (MAX_SIZE <? _); [by exists []; split; [|left]|].
  destruct (String.eqb _ _); [by exists []; split; [|left]|]. cbv zeta.
  destruct (Hc n (request_params (encoded_text content) file pdf_page))
    as [(response & data & Hr & Hd)|(code & message & Hr)]; rewrite Hr.
  - rewrite Hd. exists data. split; [done|]. right. eauto.
  - exists []. split; [done|by left].
Qed.

(** One iteration on a readable file writes one output and returns. *)
Lemma collect_data_body_writes client file w :
  well_behaved client → is_Some (disk w !! file) →
  ∃ out w',
    collect_data_body client file w = (Ret tt, w') ∧
    artifact_of client file out ∧
    writes w' = writes w ++ [out] ∧
    disk w' = <[out.1 := out.2]> (disk w).
Proof.
  intros Hc [content Hf]. rewrite collect_data_body_summary, Hf.
  destruct (recognition_returns client (length (calls w)) content file None Hc)
    as (data & Hr & Hd).
  destruct (recognition _ _ _ _) as [[r cs] ls]. cbn [fst snd] in Hr. subst r.
  destruct (excel_path_total file) as [excel He]. rewrite He.
  exists (excel, data). eexists. split; [reflexivity|]. split; [|done].
  split; [done|]. destruct Hd as [->|(req & response & Hd)]; [by left|right; eauto].
Qed.

Lemma for_each_outputs client files :
  well_behaved client →
  ∀ w, Forall (λ file, is_Some (disk w !! file)) files →
  ∃ w' outs,
    for_each files (collect_data_body client) w = (Ret tt, w') ∧
    writes w' = writes w ++ outs ∧
    Forall2 (artifact_of client) files outs ∧
    (∀ p, is_Some (disk w !! p) → is_Some (disk w' !! p)) ∧
    Forall (λ out, is_Some (disk w' !! out.1)) outs.
Proof.
  intros Hc. induction files as [|file files IH]; intros w Hfs.
  - exists w, []. rewrite app_nil_r. repeat split; auto.
  - apply Forall_cons in Hfs as [Hf Hfs].
    destruct (collect_data_body_writes client file w Hc Hf) as (out & w1 & Hb & Ha & Hw & Hd).
    assert (Hgrow : ∀ p, is_Some (disk w !! p) → is_Some (disk w1 !! p)).
    { intros p Hp. rewrite Hd. apply lookup_insert_is_Some'. by right. }
    destruct (IH w1) as (w' & outs & Hrun & Hws & Hall & Hkeep & Hout).
    { eapply Forall_impl; [exact Hfs|]. intros f. apply Hgrow. }
    exists w', (out :: outs). rewrite for_each_cons, Hb. split; [done|].
    split; [by rewrite Hws, Hw, <- app_assoc|].
    split; [by constructor|]. split; [auto|].
    constructor; [|done]. apply Hkeep. rewrite Hd, lookup_insert_eq. eauto.
Qed.

End Outputs.

Section FileByFile.
Context `{lib : Base64Lib}.

(** One iteration on a readable file, with a provider that is well
    behaved: the client returns, by one of the four paths; the iteration
    writes what it returned at the output path of the file, and returns. *)
Lemma collect_data_body_step client file w :
  well_behaved client → is_Some (disk w !! file) →
  ∃ result w1 excel,
    get_ocr_result client file None (push_log (processing_record file) w) = (Ret result, w1) ∧
    outcome_of client w file result ∧
    excel_path file = Ret excel ∧
    collect_data_body client file w
      = (Ret tt, push_log (written_record file) (push_write excel result w1)) ∧
    artifact_of client file (excel, result) ∧
    writes w1 = writes w ∧ disk w1 = disk w.
Proof.
  intros Hc [content Hf]. destruct (excel_path_total file) as [excel He].
  rewrite collect_data_body_run, get_ocr_result_summary. cbn [calls disk push_log].
  rewrite Hf, He. unfold recognition.
  destruct (Z.ltb_spec MAX_SIZE (encoded_size content)) as [Hs|Hs].
  { exists [], (extend [too_large_record (encoded_size content)] []
                  (push_log (processing_record file) w)), excel.
    repeat split; try done.
    - exists content. split; [done|]. split; [by left|done].
    - by left. }
  destruct (String.eqb _ _) eqn:E.
  { apply encoded_text_empty_iff in E.
    exists [], (extend [] [] (push_log (processing_record file) w)), excel.
    repeat split; try done.
    - exists content. split; [done|]. split; [right; by left|done].
    - by left. }
  assert (Ha : accepted content).
  { split; [|done]. intros ->. discriminate E. }
  cbv zeta.
  destruct (Hc (length (calls w)) (request_params (encoded_text content) file None))
    as [(response & data & Hr & Hd)|(code & message & Hr)]; rewrite Hr.
  - rewrite Hd. eexists data, _, excel. repeat split; try done.
    + exists content. split; [done|]. split.
      * do 3 right. split; [done|]. by exists response.
      * intros [Hlarge|[Hempty|(code & message & Hfail)]].
        -- lia.
        -- by destruct Ha.
        -- rewrite Hr in Hfail. discriminate Hfail.
    + right. eauto.
  - eexists [], _, excel. repeat split; try done.
    + exists content. split; [done|]. split; [|done]. do 2 right. left. rewrite Hr.
      split; [done|]. split; [done|]. by exists code, message.
    + by left.
Qed.

Lemma for_each_file_by_file client files :
  well_behaved client →
  ∀ w, Forall (λ file, is_Some (disk w !! file)) files →
  ∃ w' outs,
    for_each files (collect_data_body client) w = (Ret tt, w') ∧
    writes w' = writes w ++ outs ∧
    Forall2 (artifact_of client) files outs ∧
    (∀ p, is_Some (disk w !! p) → is_Some (disk w' !! p)) ∧
    Forall (λ out, is_Some (disk w' !! out.1)) outs ∧
    file_by_file client files w outs w'.
Proof.
  intros Hc. induction files as [|file files IH]; intros w Hfs.
  - exists w, []. rewrite app_nil_r. repeat split; auto. constructor.
  - apply Forall_cons in Hfs as [Hf Hfs].
    destruct (collect_data_body_step client file w Hc Hf)
      as (result & w1 & excel & Hget & Hout & He & Hb & Ha & Hw1 & Hd1).
    set (w2 := push_log (written_record file) (push_write excel result w1)) in *.
    assert (Hd2 : disk w2 = <[excel := result]> (disk w)) by (cbn; by rewrite Hd1).
    assert (Hgrow : ∀ p, is_Some (disk w !! p) → is_Some (disk w2 !! p)).
    { intros p Hp. rewrite Hd2. apply lookup_insert_is_Some'. by right. }
    destruct (IH w2) as (w' & outs & Hrun & Hws & Hall & Hkeep & Hdisk & Hsteps).
    { eapply Forall_impl; [exact Hfs|]. intros f. apply Hgrow. }
    exists w', ((excel, result) :: outs). rewrite for_each_cons, Hb. split; [done|].
    split; [rewrite Hws; cbn; by rewrite Hw1, <- app_assoc|].
    split; [by constructor|]. split; [auto|]. split.
    + constructor; [|done]. apply Hkeep. rewrite Hd2, lookup_insert_eq. eauto.
    + by apply (file_by_file_cons client file files w result w1 excel outs w').
Qed.

End FileByFile.

(** C5.  When every file of the list can be read and the provider is well
    behaved (it answers with a [Data] the decoder reads, or fails with its
    own exception), the orchestrator returns normally and writes exactly one
    output for every file, in the order of the list, at the path derived
    from the file.  The bytes written for a file are those the client
    returned for that file, by the path the file took: nothing when the
    file is too large, empty or refused by the provider, the decoded answer
    when it is recognized.  Every one of these paths holds a file at the
    end. *)
Theorem every_file_gets_an_output `{lib : Base64Lib} client files w :
  Forall (λ file, is_Some (disk w !! file)) files →
  well_behaved client →
  ∃ w' outs,
    collect_data client files w = (Ret tt, w') ∧
    writes w' = writes w ++ outs ∧
    Forall2 (artifact_of client) files outs ∧
    Forall (λ out, is_Some (disk w' !! out.1)) outs ∧
    file_by_file client files (push_dir OUTPUT (push_log start_record w)) outs w'.
Proof.
  intros Hfs Hc. rewrite collect_data_run.
  destruct (for_each_file_by_file client files Hc (push_dir OUTPUT (push_log start_record w)) Hfs)
    as (w' & outs & Hrun & Hws & Hall & _ & Hout & Hsteps).
  exists w', outs. done.
Qed.

Example sample_run_writes :
  writes (collect_data (lib := sample_base64) (failing_at 1)
            [["tables"; "a.png"]; ["tables"; "blank.png"]; ["tables"; "b.pdf"];
             ["tables"; "sub"; "c.jpg"]]
            (initial_world sample_disk)).2
  = [(["output"; "a.xlsx"], ["h"%byte; "i"%byte]);
     (["output"; "blank.xlsx"], []);
     (["output"; "b.xlsx"], []);
     (["output"; "c.xlsx"], ["h"%byte; "i"%byte])].
Proof. vm_compute. reflexivity. Qed.

Lemma sample_disk_readable :
  Forall (λ file, is_Some (sample_disk !! file))
    [["tables"; "a.png"]; ["tables"; "blank.png"]; ["tables"; "b.pdf"]; ["tables"; "sub"; "c.jpg"]].
Proof. repeat constructor; vm_compute; eauto. Qed.

Lemma failing_at_well_behaved k : well_behaved (lib := sample_base64) (failing_at k).
Proof.
  intros n req. unfold failing_at. case_bool_decide.
  - right. unfold sdk_failure, failing_client. eauto.
  - left. unfold answering_client. eauto.
Qed.

Lemma every_file_gets_an_output_witness :
  let files := [["tables"; "a.png"]; ["tables"; "blank.png"]; ["tables"; "b.pdf"];
                ["tables"; "sub"; "c.jpg"]] in
  let w := initial_world sample_disk in
  (Forall (λ file, is_Some (disk w !! file)) files ∧
   well_behaved (lib := sample_base64) (failing_at 1)) ∧
  ∃ w' outs,
    collect_data (lib := sample_base64) (failing_at 1) files w = (Ret tt, w') ∧
    writes w' = writes w ++ outs ∧
    Forall2 (artifact_of (lib := sample_base64) (failing_at 1)) files outs ∧
    Forall (λ out, is_Some (disk w' !! out.1)) outs ∧
    file_by_file (lib := sample_base64) (failing_at 1) files
      (push_dir OUTPUT (push_log start_record w)) outs w'.
Proof.
  intros files w. split; [split; [exact sample_disk_readable|exact (failing_at_well_behaved 1)]|].
  exact (every_file_gets_an_output (lib := sample_base64) (failing_at 1) files w
           sample_disk_readable (failing_at_well_behaved 1)).
Defined.

(** ** Where inputs and outputs live *)

Lemma truediv_prefix top seg : top `prefix_of` (top </> seg).
Proof.
  unfold PurePath.truediv. case_bool_decide; [done|]. by apply prefix_app_r.
Qed.

Lemma entry_files_under e : ∀ top p, In p (entry_files top e) → top `prefix_of` p.
Proof.
  induction e as [n c|d es IH] using Entry_nested_ind; intros top p; simpl.
  - intros [<-|[]]. apply truediv_prefix.
  - intros (e & He & Hp)%in_flat_map. rewrite Forall_forall in IH.
    specialize (IH e (proj2 (list_elem_of_In _ _) He) _ _ Hp).
    etransitivity; [|exact IH]. by apply prefix_app_r.
Qed.

(** Every discovered file is under the input directory. *)
Lemma get_all_files_under tables file :
  In file (get_all_files tables) → IMAGE_DIR `prefix_of` file.
Proof.
  intros [(e & He & Hp)%in_flat_map _]%get_all_files_spec.
  by apply (entry_files_under e).
Qed.

(** No output path is under the input directory. *)
Lemma excel_path_outside file excel :
  excel_path file = Ret excel → ¬ IMAGE_DIR `prefix_of` excel.
Proof.
  unfold excel_path, with_suffix.
  change (PyStr.contains "/" ".xlsx") with false.
  change (PyStr.startswith "." ".xlsx") with true.
  change (".xlsx" =? "")%string with false.
  change (".xlsx" =? ".")%string with false. cbn [negb andb orb].
  destruct (String.eqb _ ""); [done|].
  unfold PurePath.truediv. case_bool_decide.
  - intros [= <-] [k Hk]. vm_compute in Hk. discriminate.
  - intros [= <-] [k Hk]. cbn in Hk. discriminate.
Qed.

Lemma input_is_no_output file f excel :
  IMAGE_DIR `prefix_of` f → excel_path file = Ret excel → f ≠ excel.
Proof. intros Hf He ->. by apply (excel_path_outside _ _ He). Qed.

(** ** Isolation of a failure *)

Section Isolation.
Context `{lib : Base64Lib}.

Lemma for_each_app {A} (xs ys : list A) body w :
  for_each (xs ++ ys) body w =
  match for_each xs body w with
  | (Ret _, w') => for_each ys body w'
  | (Raise e, w') => (Raise e, w')
  end.
Proof.
  revert w. induction xs as [|x xs IH]; intros w; [done|].
  cbn [app]. rewrite !for_each_cons.
  destruct (body x w) as [[[]|e] w1]; [apply IH|done].
Qed.

(** A call depends on the provider through its answers only. *)
Lemma recognition_ext answer1 answer2 content file pdf_page :
  (∀ req, answer2 req = answer1 req) →
  recognition answer2 content file pdf_page = recognition answer1 content file pdf_page.
Proof.
  intros E. unfold recognition. destruct content as [content|]; [|done].
  destruct (MAX_SIZE <? _); [done|]. destruct (String.eqb _ _); [done|].
  cbv zeta. by rewrite E.
Qed.

(** A call that sends nothing does not depend on the provider at all. *)
Lemma recognition_silent answer1 answer2 content file pdf_page :
  (recognition answer1 content file pdf_page).1.2 = [] →
  recognition answer2 content file pdf_page = recognition answer1 content file pdf_page.
Proof.
  unfold recognition. destruct content as [content|]; [|done].
  destruct (MAX_SIZE <? _); [done|]. destruct (String.eqb _ _); [done|]. cbv zeta.
  destruct (answer1 _) as [response|e].
  - destruct (b64decode _) as [data|e]; [done|]. by destruct e.
  - by destruct e.
Qed.

Lemma recognition_accepted_sent answer content file pdf_page :
  accepted content →
  (recognition answer (Some content) file pdf_page).1.2
    = [request_params (encoded_text content) file pdf_page].
Proof.
  intros [Hne Hs]. unfold recognition.
  destruct (Z.ltb_spec MAX_SIZE (encoded_size content)); [lia|].
  destruct (String.eqb _ _) eqn:E; [by apply encoded_text_empty_iff in E|]. cbv zeta.
  destruct (answer _) as [response|e].
  - destruct (b64decode _) as [data|e]; [done|]. by destruct e.
  - by destruct e.
Qed.

Lemma recognition_sdk_failure answer content file pdf_page :
  accepted content →
  (∀ req, sdk_failure (answer req)) →
  (recognition answer (Some content) file pdf_page).1.1 = Ret [].
Proof.
  intros [Hne Hs] Ha. unfold recognition.
  destruct (Z.ltb_spec MAX_SIZE (encoded_size content)); [lia|].
  destruct (String.eqb _ _) eqn:E; [by apply encoded_text_empty_iff in E|]. cbv zeta.
  destruct (Ha (request_params (encoded_text content) file pdf_page))
    as (code & message & ->). done.
Qed.

Lemma for_each_calls_grow client files w :
  (length (calls w) ≤ length (calls (for_each files (collect_data_body client) w).2))%nat.
Proof.
  destruct (for_each_body_calls client (λ _, True) files) with (w := w) as (new & -> & _).
  - intros file v. by apply Forall_forall.
  - rewrite length_app. lia.
Qed.

(** Two providers that agree on every call a run makes give the same run. *)
Lemma for_each_agree client1 client2 files : ∀ w,
  (∀ n req, (n < length (calls (for_each files (collect_data_body client1) w).2))%nat →
            client2 n req = client1 n req) →
  for_each files (collect_data_body client2) w = for_each files (collect_data_body client1) w.
Proof.
  induction files as [|file files IH]; intros w Hagree; [done|].
  rewrite !for_each_cons.
  assert (Hbody : collect_data_body client2 file w = collect_data_body client1 file w).
  { rewrite !collect_data_body_summary.
    destruct (recognition_sent (client1 (length (calls w))) (disk w !! file) file None)
      as [Hs|[text Hs]].
    - by rewrite (recognition_silent _ _ _ _ _ Hs).
    - rewrite (recognition_ext (client1 (length (calls w)))); [done|].
      intros req. apply Hagree.
      rewrite for_each_cons.
      assert (Hc := collect_data_body_calls client1 file w). rewrite Hs in Hc.
      destruct (collect_data_body client1 file w) as [[[]|e] w1]; cbn [snd] in Hc |- *.
      + pose proof (for_each_calls_grow client1 files w1) as Hg.
        rewrite Hc, length_app in Hg. cbn in Hg. lia.
      + rewrite Hc, length_app. cbn. lia. }
  rewrite Hbody.
  destruct (collect_data_body client1 file w) as [[[]|e] w1] eqn:Hb; [|done].
  apply IH. intros n req Hn. apply Hagree. by rewrite for_each_cons, Hb.
Qed.

(** What an iteration leaves on disk: the disk it found, with at most one
    output added. *)
Lemma collect_data_body_disk client file w p :
  (∀ excel, excel_path file = Ret excel → p ≠ excel) →
  disk (collect_data_body client file w).2 !! p = disk w !! p.
Proof.
  intros Hp. rewrite collect_data_body_summary.
  destruct (recognition _ _ _ _) as [[[data|e] cs] ls]; [|done].
  destruct (excel_path file) as [excel|e] eqn:He; [|done].
  cbn. rewrite lookup_insert_ne; [done|]. intros <-. by apply (Hp excel).
Qed.

(** A run leaves the files under the input directory as they were. *)
Lemma for_each_keeps_inputs client files p :
  IMAGE_DIR `prefix_of` p →
  ∀ w, disk (for_each files (collect_data_body client) w).2 !! p = disk w !! p.
Proof.
  intros Hp. induction files as [|file files IH]; intros w; [done|].
  rewrite for_each_cons.
  assert (Hd := collect_data_body_disk client file w p
                  (λ excel, input_is_no_output file p excel Hp)).
  destruct (collect_data_body client file w) as [[[]|e] w1]; cbn [snd] in Hd |- *.
  - by rewrite IH.
  - done.
Qed.

(** One iteration on two worlds that differ at one output only, for two
    providers that agree on the call it makes: the same outcome, the same
    output written, and worlds that still differ at that output only. *)
Lemma collect_data_body_sim client1 client2 excelB file w1 w2 :
  same_but_at excelB w1 w2 → file ≠ excelB →
  (∀ req, client2 (length (calls w1)) req = client1 (length (calls w1)) req) →
  ∃ r w1' w2' outs,
    collect_data_body client1 file w1 = (r, w1') ∧
    collect_data_body client2 file w2 = (r, w2') ∧
    writes w1' = writes w1 ++ outs ∧ writes w2' = writes w2 ++ outs ∧
    same_but_at excelB w1' w2' ∧
    (length (calls w1) ≤ length (calls w1'))%nat.
Proof.
  intros [Hc Hd] Hf Hagree. rewrite !collect_data_body_summary.
  rewrite <- Hc, <- (Hd file Hf). rewrite (recognition_ext _ _ _ _ _ Hagree).
  destruct (recognition _ _ _ _) as [[[data|e] cs] ls].
  - destruct (excel_path file) as [excel|e].
    + eexists _, _, _, [(excel, data)]. repeat split; try reflexivity.
      * cbn. by rewrite Hc.
      * intros p Hp. cbn. destruct (decide (excel = p)) as [->|Hne].
        -- by rewrite !lookup_insert_eq.
        -- rewrite !lookup_insert_ne by done. by apply Hd.
      * cbn. rewrite length_app. lia.
    + eexists _, _, _, []. rewrite !app_nil_r. repeat split; try reflexivity.
      * cbn. by rewrite Hc.
      * intros p Hp. cbn. by apply Hd.
      * cbn. rewrite length_app. lia.
  - eexists _, _, _, []. rewrite !app_nil_r. repeat split; try reflexivity.
    + cbn. by rewrite Hc.
    + intros p Hp. cbn. by apply Hd.
    + cbn. rewrite length_app. lia.
Qed.

Lemma for_each_sim client1 client2 excelB k files :
  (∀ n req, n ≠ k → client2 n req = client1 n req) →
  Forall (λ file, file ≠ excelB) files →
  ∀ w1 w2, same_but_at excelB w1 w2 → (k < length (calls w1))%nat →
  ∃ r w1' w2' outs,
    for_each files (collect_data_body client1) w1 = (r, w1') ∧
    for_each files (collect_data_body client2) w2 = (r, w2') ∧
    writes w1' = writes w1 ++ outs ∧ writes w2' = writes w2 ++ outs ∧
    same_but_at excelB w1' w2'.
Proof.
  intros Hagree. induction files as [|file files IH]; intros Hfs w1 w2 Hsim Hk.
  - exists (Ret tt), w1, w2, []. by rewrite !app_nil_r.
  - apply Forall_cons in Hfs as [Hf Hfs]. rewrite !for_each_cons.
    destruct (collect_data_body_sim client1 client2 excelB file w1 w2 Hsim Hf)
      as (r & v1 & v2 & out & -> & -> & Hw1 & Hw2 & Hsim' & Hgrow).
    { intros req. apply Hagree. lia. }
    destruct r as [[]|e].
    + destruct (IH Hfs v1 v2 Hsim') as (r & w1' & w2' & outs & -> & -> & Hv1 & Hv2 & Hs); [lia|].
      exists r, w1', w2', (out ++ outs).
      rewrite Hv1, Hv2, Hw1, Hw2, <- !app_assoc. done.
    + exists (Raise e), v1, v2, out. done.
Qed.

End Isolation.

Section IsolationTheorem.
Context `{lib : Base64Lib}.

(** The iteration on a file whose payload is accepted, when the provider
    answers its call within the failures the program handles: one request,
    one output, empty when the provider failed. *)
Lemma collect_data_body_accepted client file w content :
  disk w !! file = Some content → accepted content →
  (∀ req, (∃ response data, client (length (calls w)) req = Ret response ∧
                            b64decode (Data response) = Ret data) ∨
          sdk_failure (client (length (calls w)) req)) →
  ∃ excel data w',
    excel_path file = Ret excel ∧
    collect_data_body client file w = (Ret tt, w') ∧
    writes w' = writes w ++ [(excel, data)] ∧
    disk w' = <[excel := data]> (disk w) ∧
    calls w' = calls w ++ [request_params (encoded_text content) file None] ∧
    ((∀ req, sdk_failure (client (length (calls w)) req)) → data = []).
Proof.
  intros Hf [Hne Hs] Hc. destruct (excel_path_total file) as [excel He]. exists excel.
  rewrite collect_data_body_summary, Hf, He. unfold recognition.
  destruct (Z.ltb_spec MAX_SIZE (encoded_size content)); [lia|].
  destruct (String.eqb _ _) eqn:E; [by apply encoded_text_empty_iff in E|]. cbv zeta.
  destruct (Hc (request_params (encoded_text content) file None))
    as [(response & data & Hr & Hd)|(code & message & Hr)]; rewrite Hr.
  - rewrite Hd. exists data. eexists. repeat split; try reflexivity.
    intros Hfail. destruct (Hfail (request_params (encoded_text content) file None))
      as (code & message & Hr'). congruence.
  - exists []. eexists. repeat split; reflexivity.
Qed.

End IsolationTheorem.

(** C8.  A batch of files under the input directory, all readable, and two
    runs from the same world with two providers that are well behaved and
    answer every call alike but the call for file B, which fails in the
    second run.  Both runs complete; they write the same bytes, in the same
    order, for every file before and after B, which are the outputs of
    those files; the second run writes an empty output for B; and at the
    end the two disks differ at most at the output path of B. *)
Theorem failure_of_one_file_is_isolated `{lib : Base64Lib}
    client1 client2 pre fileB post w content :
  Forall (λ file, (IMAGE_DIR `prefix_of` file) ∧ is_Some (disk w !! file)) (pre ++ fileB :: post) →
  disk w !! fileB = Some content → accepted content →
  well_behaved client1 →
  (∀ n req, n ≠ length (calls (collect_data client1 pre w).2) → client2 n req = client1 n req) →
  (∀ req, sdk_failure (client2 (length (calls (collect_data client1 pre w).2)) req)) →
  ∃ w1 w2 before dataB after excelB,
    collect_data client1 (pre ++ fileB :: post) w = (Ret tt, w1) ∧
    collect_data client2 (pre ++ fileB :: post) w = (Ret tt, w2) ∧
    excel_path fileB = Ret excelB ∧
    writes w1 = writes w ++ before ++ (excelB, dataB) :: after ∧
    writes w2 = writes w ++ before ++ (excelB, []) :: after ∧
    Forall2 (artifact_of client1) pre before ∧
    Forall2 (artifact_of client1) post after ∧
    (∀ p, p ≠ excelB → disk w1 !! p = disk w2 !! p).
Proof.
  intros Hfiles HfB Ha Hwb Hagree Hfail.
  rewrite !collect_data_run. rewrite collect_data_run in Hagree, Hfail.
  set (w0 := push_dir OUTPUT (push_log start_record w)) in *.
  apply Forall_app in Hfiles as [Hpre Hrest].
  apply Forall_cons in Hrest as [[HBin _] Hpost].
  (* the files before B *)
  destruct (for_each_outputs client1 pre Hwb w0) as (wB & before & Hrun1 & Hwr & Hart & Hkeep & _).
  { eapply Forall_impl; [exact Hpre|]. by intros f [_ Hf]. }
  rewrite Hrun1 in Hagree, Hfail. cbn [snd] in Hagree, Hfail.
  assert (Hrun2 : for_each pre (collect_data_body client2) w0 = (Ret tt, wB)).
  { rewrite (for_each_agree client1 client2 pre w0), Hrun1; [done|].
    rewrite Hrun1. cbn [snd]. intros n req Hn. apply Hagree. lia. }
  assert (HfB' : disk wB !! fileB = Some content).
  { pose proof (for_each_keeps_inputs client1 pre fileB HBin w0) as Hd.
    rewrite Hrun1 in Hd. cbn [snd] in Hd. by rewrite Hd. }
  (* B itself, in the two runs *)
  destruct (collect_data_body_accepted client1 fileB wB content HfB' Ha)
    as (excelB & dataB & w1B & HeB & Hb1 & Hw1 & Hd1 & Hc1 & _).
  { intros req. apply Hwb. }
  destruct (collect_data_body_accepted client2 fileB wB content HfB' Ha)
    as (excelB' & dataB' & w2B & HeB' & Hb2 & Hw2 & Hd2 & Hc2 & Hempty).
  { intros req. right. apply Hfail. }
  rewrite HeB in HeB'. injection HeB' as <-. rewrite (Hempty Hfail) in Hw2, Hd2.
  assert (Hsim : same_but_at excelB w1B w2B).
  { split; [by rewrite Hc1, Hc2|]. intros p Hp. by rewrite Hd1, Hd2, !lookup_insert_ne. }
  (* the files after B *)
  destruct (for_each_outputs client1 post Hwb w1B) as (w1 & after & Hrun1' & Hwr' & Hart' & _ & _).
  { eapply Forall_impl; [exact Hpost|]. intros f [_ Hf]. rewrite Hd1.
    apply lookup_insert_is_Some'. right. by apply Hkeep. }
  destruct (for_each_sim client1 client2 excelB (length (calls wB)) post Hagree) with (w1 := w1B) (w2 := w2B)
    as (r & w1' & w2 & outs & Hr1 & Hr2 & Hws1 & Hws2 & Hsim').
  { eapply Forall_impl; [exact Hpost|]. intros f [Hf _].
    by apply (input_is_no_output fileB). }
  { exact Hsim. }
  { rewrite Hc1, length_app. cbn. lia. }
  rewrite Hrun1' in Hr1. injection Hr1 as <- <-.
  rewrite Hwr' in Hws1. apply app_inv_head in Hws1 as <-.
  exists w1, w2, before, dataB, after, excelB.
  rewrite !for_each_app, Hrun1, Hrun2, !for_each_cons, Hb1, Hb2, Hrun1', Hr2.
  repeat split; try done.
  - rewrite Hwr', Hw1, Hwr. cbn. by rewrite <- !app_assoc.
  - rewrite Hws2, Hw2, Hwr. cbn. by rewrite <- !app_assoc.
  - apply Hsim'.
Qed.

Lemma answering_client_well_behaved : well_behaved (lib := sample_base64) answering_client.
Proof. intros n req. left. unfold answering_client. eauto. Qed.

Lemma sample_call_of_b :
  length (calls (collect_data (lib := sample_base64) answering_client
                   [["tables"; "a.png"]] (initial_world sample_disk)).2) = 1%nat.
Proof. vm_compute. reflexivity. Qed.

Lemma failure_of_one_file_is_isolated_witness :
  let pre := [["tables"; "a.png"]] in
  let fileB := ["tables"; "b.pdf"] in
  let post := [["tables"; "sub"; "c.jpg"]] in
  let content := ["p"%byte; "d"%byte; "f"%byte] in
  let w := initial_world sample_disk in
  let client1 := answering_client in
  let client2 := failing_at 1 in
  (Forall (λ file, (IMAGE_DIR `prefix_of` file) ∧ is_Some (disk w !! file)) (pre ++ fileB :: post) ∧
   disk w !! fileB = Some content ∧ accepted content ∧
   well_behaved (lib := sample_base64) client1 ∧
   (∀ n req, n ≠ length (calls (collect_data (lib := sample_base64) client1 pre w).2) →
             client2 n req = client1 n req) ∧
   (∀ req, sdk_failure
             (client2 (length (calls (collect_data (lib := sample_base64) client1 pre w).2)) req))) ∧
  ∃ w1 w2 before dataB after excelB,
    collect_data (lib := sample_base64) client1 (pre ++ fileB :: post) w = (Ret tt, w1) ∧
    collect_data (lib := sample_base64) client2 (pre ++ fileB :: post) w = (Ret tt, w2) ∧
    excel_path fileB = Ret excelB ∧
    writes w1 = writes w ++ before ++ (excelB, dataB) :: after ∧
    writes w2 = writes w ++ before ++ (excelB, []) :: after ∧
    Forall2 (artifact_of (lib := sample_base64) client1) pre before ∧
    Forall2 (artifact_of (lib := sample_base64) client1) post after ∧
    (∀ p, p ≠ excelB → disk w1 !! p = disk w2 !! p).
Proof.
  intros pre fileB post content w client1 client2.
  assert (Hfiles : Forall (λ file, (IMAGE_DIR `prefix_of` file) ∧ is_Some (disk w !! file))
                     (pre ++ fileB :: post)).
  { repeat constructor; try (eexists; reflexivity); vm_compute; eauto. }
  assert (HfB : disk w !! fileB = Some content) by (vm_compute; reflexivity).
  assert (Ha : accepted content) by (split; [discriminate|vm_compute; discriminate]).
  assert (Hagree : ∀ n req,
            n ≠ length (calls (collect_data (lib := sample_base64) client1 pre w).2) →
            client2 n req = client1 n req).
  { intros n req. unfold pre, w, client1. rewrite sample_call_of_b. intros Hn.
    unfold client2, failing_at. by case_bool_decide. }
  assert (Hfail : ∀ req, sdk_failure
            (client2 (length (calls (collect_data (lib := sample_base64) client1 pre w).2)) req)).
  { intros req. unfold pre, w, client1. rewrite sample_call_of_b.
    unfold client2, failing_at, failing_client, sdk_failure. cbn. eauto. }
  split; [by repeat split; try exact answering_client_well_behaved|].
  exact (failure_of_one_file_is_isolated (lib := sample_base64) client1 client2 pre fileB post w
           content Hfiles HfB Ha answering_client_well_behaved Hagree Hfail).
Defined.

(** ** Discovery followed by the batch (lines 165 to 170) *)

Lemma union_list_is_Some {A} (f : A → gmap Path (list byte)) xs x p :
  In x xs → is_Some (f x !! p) → is_Some ((⋃ (map f xs)) !! p).
Proof.
  induction xs as [|y xs IH]; intros []; intros Hp; cbn [map union_list foldr];
    apply lookup_union_is_Some.
  - subst y. by left.
  - right. by apply IH.
Qed.

Lemma entry_disk_readable e : ∀ top p,
  In p (entry_files top e) → is_Some (entry_disk top e !! p).
Proof.
  induction e as [n c|d es IH] using Entry_nested_ind; intros top p; simpl.
  - intros [<-|[]]. rewrite lookup_singleton_eq. eauto.
  - intros (e & He & Hp)%in_flat_map. rewrite Forall_forall in IH.
    apply (union_list_is_Some _ es e); [done|].
    by apply (IH e (proj2 (list_elem_of_In _ _) He)).
Qed.

(** Every discovered file is under the input directory and can be read
    from the disk that holds the tree. *)
Lemma discovered_files_readable tables :
  Forall (λ file, (IMAGE_DIR `prefix_of` file) ∧
                  is_Some (disk (initial_world (tree_disk IMAGE_DIR tables)) !! file))
         (get_all_files tables).
Proof.
  apply Forall_forall. intros file Hf%list_elem_of_In.
  split; [by apply (get_all_files_under tables)|].
  apply get_all_files_spec in Hf as [(e & He & Hp)%in_flat_map _].
  apply (union_list_is_Some _ tables e); [done|]. by apply entry_disk_readable.
Qed.

(** Discovery and then the batch, with a provider that is well behaved,
    complete, with one output for every discovered file. *)
Lemma discovered_batch_completes `{lib : Base64Lib} client tables :
  well_behaved client →
  ∃ w' outs,
    collect_data client (get_all_files tables) (initial_world (tree_disk IMAGE_DIR tables))
      = (Ret tt, w') ∧
    writes w' = outs ∧
    Forall2 (artifact_of client) (get_all_files tables) outs.
Proof.
  intros Hc. rewrite collect_data_run.
  destruct (for_each_outputs client (get_all_files tables) Hc
              (push_dir OUTPUT (push_log start_record
                 (initial_world (tree_disk IMAGE_DIR tables)))))
    as (w' & outs & Hrun & Hws & Hall & _ & _).
  { eapply Forall_impl; [apply discovered_files_readable|]. by intros f [_ Hf]. }
  exists w', outs. done.
Qed.

Example discovered_batch_run :
  let tables := [File "a.png" ["h"%byte]; File "notes.txt" ["n"%byte]; File "scan.bmp" ["b"%byte];
                 Dir "sub" [File "b.pdf" []; File "a.jpeg" ["j"%byte]]] in
  let run := collect_data (lib := sample_base64) (failing_at 0) (get_all_files tables)
               (initial_world (tree_disk IMAGE_DIR tables)) in
  run.1 = Ret tt ∧
  writes run.2 = [(["output"; "a.xlsx"], []); (["output"; "b.xlsx"], []);
                  (["output"; "a.xlsx"], ["h"%byte; "i"%byte])] ∧
  map (λ req, (req !! "IsPdf", req !! "PdfPageNumber")) (calls run.2) = [(None, None); (None, None)] ∧
  disk run.2 !! ["output"; "a.xlsx"] = Some ["h"%byte; "i"%byte].
Proof. vm_compute. done. Qed.

(** * Further properties of the code *)

(** ** What a run adds to the world *)

Lemma apply_writes_app ws1 ws2 d :
  apply_writes (ws1 ++ ws2) d = apply_writes ws2 (apply_writes ws1 d).
Proof. unfold apply_writes. by rewrite foldl_app. Qed.

Lemma grow_nil w : grow [] [] [] w = w.
Proof. destruct w. unfold grow. cbn. by rewrite !app_nil_r. Qed.

Lemma grow_grow ls1 cs1 ws1 ls2 cs2 ws2 w :
  grow ls2 cs2 ws2 (grow ls1 cs1 ws1 w) = grow (ls1 ++ ls2) (cs1 ++ cs2) (ws1 ++ ws2) w.
Proof. unfold grow. cbn. by rewrite apply_writes_app, !app_assoc. Qed.

Lemma payload_free_params req : payload_free (params_record req).
Proof.
  split; [done|]. intros d Hd. cbn in Hd.
  apply list_elem_of_singleton in Hd. injection Hd as ->. apply lookup_delete_eq.
Qed.

Lemma payload_free_plain name lvl m a :
  (∀ d, m ≠ ODict d) → (∀ d, ODict d ∉ a) → payload_free (mkLog name lvl m a).
Proof. intros Hm Ha. split; [done|]. intros d Hd. by destruct (Ha d). Qed.

Lemma progress_app ls1 ls2 : progress (ls1 ++ ls2) = progress ls1 ++ progress ls2.
Proof. apply filter_app. Qed.

Lemma progress_own name m a ls :
  name = "collect_data" → progress (mkLog name INFO m a :: ls) = mkLog name INFO m a :: progress ls.
Proof. intros ->. unfold progress. by rewrite filter_cons_True. Qed.

Section Effects.
Context `{lib : Base64Lib}.

(** What one call observes and leaves: the requests are those of an
    accepted payload of the file, and no record holds the payload or comes
    from the logger of the orchestrator. *)
Lemma recognition_effects answer content file pdf_page :
  ((recognition answer content file pdf_page).1.2 = [] ∨
   ∃ c, content = Some c ∧ accepted c ∧
        (recognition answer content file pdf_page).1.2
          = [request_params (encoded_text c) file pdf_page]) ∧
  Forall payload_free (recognition answer content file pdf_page).2 ∧
  progress (recognition answer content file pdf_page).2 = [].
Proof.
  unfold recognition. destruct content as [c|]; [|by repeat split; [left|..]].
  destruct (Z.ltb_spec MAX_SIZE (encoded_size c)) as [Hs|Hs].
  { split; [by left|]. split; [|done]. constructor; [|done].
    apply payload_free_plain; [done|]. intros d Hd. by apply elem_of_nil in Hd. }
  destruct (String.eqb _ _) eqn:E; [by repeat split; [left|..]|]. cbv zeta.
  assert (Ha : accepted c).
  { split; [|done]. intros ->. discriminate E. }
  assert (Hplain : ∀ name lvl m s, (∀ d, m ≠ ODict d) → payload_free (mkLog name lvl m [OStr s])).
  { intros. apply payload_free_plain; [done|]. intros d Hd.
    apply list_elem_of_singleton in Hd. discriminate. }
  assert (Herr : ∀ code message, payload_free (sdk_error_record code message)).
  { intros. apply payload_free_plain; [done|]. intros d Hd. by apply elem_of_nil in Hd. }
  assert (Hone : ∀ req, Forall payload_free [params_record req]).
  { intros. constructor; [apply payload_free_params|constructor]. }
  assert (Htwo : ∀ req r, payload_free r → Forall payload_free [params_record req; r]).
  { intros. constructor; [apply payload_free_params|]. by constructor. }
  destruct (answer _) as [response|e].
  - destruct (b64decode _) as [data|e].
    + split; [right; eauto|]. split; [|done]. apply Htwo. by apply Hplain.
    + destruct e; (split; [right; eauto|]); (split; [|done]);
        first [apply Hone|apply Htwo; apply Herr].
  - destruct e; (split; [right; eauto|]); (split; [|done]);
      first [apply Hone|apply Htwo; apply Herr].
Qed.

(** One iteration, as what it adds to the world. *)
Lemma collect_data_body_grows client file w :
  ∃ ls cs ws,
    (collect_data_body client file w).2 = grow ls cs ws w ∧
    (cs = [] ∨ ∃ c, disk w !! file = Some c ∧ accepted c ∧
                    cs = [request_params (encoded_text c) file None]) ∧
    ((∃ excel data, excel_path file = Ret excel ∧ ws = [(excel, data)] ∧
                    (collect_data_body client file w).1 = Ret tt ∧
                    progress ls = [processing_record file; written_record file]) ∨
     (ws = [] ∧ (∃ e, (collect_data_body client file w).1 = Raise e) ∧
      progress ls = [processing_record file])) ∧
    Forall payload_free ls.
Proof.
  rewrite collect_data_body_summary.
  destruct (recognition_effects (client (length (calls w))) (disk w !! file) file None)
    as (Hcs & Hfree & Hprog).
  destruct (recognition _ _ _ _) as [[r cs] ls]. cbn [fst snd] in Hcs, Hfree, Hprog.
  assert (Hproc : payload_free (processing_record file)).
  { apply payload_free_plain; [done|]. intros d Hd.
    apply list_elem_of_singleton in Hd. discriminate. }
  assert (Hwrit : payload_free (written_record file)).
  { apply payload_free_plain; [done|]. intros d Hd.
    apply list_elem_of_singleton in Hd. discriminate. }
  assert (Hcs' : cs = [] ∨ ∃ c, disk w !! file = Some c ∧ accepted c ∧
                                cs = [request_params (encoded_text c) file None]).
  { destruct Hcs as [?|(c & ? & ? & ?)]; [by left|right; eauto]. }
  destruct r as [data|e]; [destruct (excel_path file) as [excel|e] eqn:He|].
  - exists (processing_record file :: ls ++ [written_record file]), cs, [(excel, data)].
    split; [|split; [done|split]].
    + unfold grow, push_log, push_write, extend, apply_writes. cbn.
      by rewrite <- !app_assoc.
    + left. exists excel, data. repeat split; try done.
      unfold processing_record, written_record.
      rewrite progress_own, progress_app, Hprog by done. cbn [app].
      by rewrite progress_own.
    + constructor; [done|]. apply Forall_app. split; [done|]. by constructor.
  - destruct (excel_path_total file) as [excel' He']. congruence.
  - exists (processing_record file :: ls), cs, [].
    split; [|split; [done|split]].
    + unfold grow, extend, apply_writes. cbn. by rewrite app_nil_r.
    + right. repeat split; eauto.
      unfold processing_record. by rewrite progress_own, Hprog.
    + by constructor.
Qed.

(** A property of what a stretch of [n] iterations adds that holds of no
    iteration, is kept when stretches are joined and holds of one
    iteration, holds of the whole loop. *)
Lemma for_each_grows client
    (P : nat → list LogRecord → list Request → list (Path * list byte) → Prop) :
  (∀ n, P n [] [] []) →
  (∀ n m ls1 cs1 ws1 ls2 cs2 ws2,
     P n ls1 cs1 ws1 → P m ls2 cs2 ws2 → P (n + m)%nat (ls1 ++ ls2) (cs1 ++ cs2) (ws1 ++ ws2)) →
  (∀ file w, ∃ ls cs ws,
     (collect_data_body client file w).2 = grow ls cs ws w ∧ P 1%nat ls cs ws) →
  ∀ files w, ∃ ls cs ws,
    (for_each files (collect_data_body client) w).2 = grow ls cs ws w ∧
    P (length files) ls cs ws.
Proof.
  intros Hnil Happ Hbody. induction files as [|file files IH]; intros w.
  - exists [], [], []. by rewrite grow_nil.
  - rewrite for_each_cons.
    destruct (Hbody file w) as (ls1 & cs1 & ws1 & Hw1 & HP1).
    destruct (collect_data_body client file w) as [[[]|e] w1]; cbn [snd] in Hw1 |- *.
    + destruct (IH w1) as (ls2 & cs2 & ws2 & Hw2 & HP2).
      exists (ls1 ++ ls2), (cs1 ++ cs2), (ws1 ++ ws2).
      rewrite Hw2, Hw1, grow_grow. split; [done|].
      apply (Happ 1%nat (length files)); done.
    + exists ls1, cs1, ws1. split; [done|].
      pose proof (Happ 1%nat (length files) _ _ _ _ _ _ HP1 (Hnil _)) as HP.
      by rewrite !app_nil_r in HP.
Qed.

(** The same for the whole of [collect_data], whose start adds one record
    and creates the output directory. *)
Lemma collect_data_grows client
    (P : nat → list LogRecord → list Request → list (Path * list byte) → Prop) :
  (∀ n, P n [] [] []) →
  (∀ n m ls1 cs1 ws1 ls2 cs2 ws2,
     P n ls1 cs1 ws1 → P m ls2 cs2 ws2 → P (n + m)%nat (ls1 ++ ls2) (cs1 ++ cs2) (ws1 ++ ws2)) →
  (∀ file w, ∃ ls cs ws,
     (collect_data_body client file w).2 = grow ls cs ws w ∧ P 1%nat ls cs ws) →
  ∀ files w, ∃ ls cs ws,
    (collect_data client files w).2 = push_dir OUTPUT (grow (start_record :: ls) cs ws w) ∧
    P (length files) ls cs ws.
Proof.
  intros Hnil Happ Hbody files w. rewrite collect_data_run.
  destruct (for_each_grows client P Hnil Happ Hbody files
              (push_dir OUTPUT (push_log start_record w))) as (ls & cs & ws & Hw & HP).
  exists ls, cs, ws. split; [|done]. rewrite Hw.
  unfold grow, push_dir, push_log. cbn. by rewrite <- app_assoc.
Qed.

End Effects.

(** ** Invariants of every run of the batch *)

Lemma string_of_list_byte_length s : String.length (string_of_list_byte s) = length s.
Proof.
  induction s as [|a s IH]; [done|].
  change (S (String.length (string_of_list_byte s)) = S (length s)). by rewrite IH.
Qed.

Lemma encoded_text_len content : PyStr.len (encoded_text content) = encoded_size content.
Proof.
  unfold PyStr.len, encoded_text, encoded_size, len_bytes.
  by rewrite string_of_list_byte_length.
Qed.

Lemma accepted_size_positive content : accepted content → 0 < encoded_size content.
Proof.
  intros [Hne _]. unfold encoded_size, len_bytes.
  destruct content as [|a [|b [|c rest]]]; [done|cbn; lia..].
Qed.

Lemma request_params_keys content file :
  dom (request_params content file None) ⊆ ({["ImageBase64"; "IsPdf"]} : gset string).
Proof.
  unfold request_params. destruct (String.eqb _ _).
  - rewrite dom_insert_L, dom_singleton_L. set_solver.
  - rewrite dom_singleton_L. set_solver.
Qed.

(** X1.  Whatever the files are, whatever is on disk and whatever the
    provider answers, every request a run of the batch sends carries a
    payload that is not empty and is at most [MAX_SIZE] long, and has no
    key other than [ImageBase64] and [IsPdf]. *)
Theorem every_request_carries_a_payload `{lib : Base64Lib} client files w :
  ∃ new,
    calls (collect_data client files w).2 = calls w ++ new ∧
    Forall (λ req, ∃ text,
              req !! "ImageBase64" = Some (JStr text) ∧
              0 < PyStr.len text ≤ MAX_SIZE ∧
              dom req ⊆ ({["ImageBase64"; "IsPdf"]} : gset string)) new.
Proof.
  destruct (collect_data_grows client (λ _ _ cs _, Forall sendable cs)) with (files := files) (w := w)
    as (ls & cs & ws & Hw & Hcs).
  - done.
  - intros. by apply Forall_app.
  - intros file v. destruct (collect_data_body_grows client file v)
      as (ls & cs & ws & Hv & [->|(c & Hc & Ha & ->)] & _); exists ls; eexists; exists ws.
    + split; [exact Hv|done].
    + split; [exact Hv|]. constructor; [|done]. by exists c, file.
  - exists cs. rewrite Hw. split; [done|].
    eapply Forall_impl; [exact Hcs|]. intros req (c & file & Ha & ->).
    exists (encoded_text c). split; [apply request_params_content|].
    rewrite encoded_text_len. split; [|apply request_params_keys].
    split; [by apply accepted_size_positive|apply Ha].
Qed.

(** X2.  A run of the batch makes one attempt per file at most: it sends no
    more requests and writes no more files than the list has files,
    whatever the provider answers and however the run ends. *)
Theorem one_attempt_per_file `{lib : Base64Lib} client files w :
  ∃ cs ws,
    calls (collect_data client files w).2 = calls w ++ cs ∧
    writes (collect_data client files w).2 = writes w ++ ws ∧
    (length cs ≤ length files)%nat ∧ (length ws ≤ length files)%nat.
Proof.
  destruct (collect_data_grows client
              (λ n _ cs ws, (length cs ≤ n)%nat ∧ (length ws ≤ n)%nat))
    with (files := files) (w := w) as (ls & cs & ws & Hw & Hn).
  - intros n. cbn. lia.
  - intros n m ls1 cs1 ws1 ls2 cs2 ws2 [] []. rewrite !length_app. lia.
  - intros file v. destruct (collect_data_body_grows client file v)
      as (ls & cs & ws & Hv & Hcs & Hws & _). exists ls, cs, ws. split; [exact Hv|].
    split.
    + destruct Hcs as [->|(c & _ & _ & ->)]; cbn; lia.
    + destruct Hws as [(excel & data & _ & -> & _)|[-> _]]; cbn; lia.
  - exists cs, ws. by rewrite Hw.
Qed.

Section Records.
Context `{lib : Base64Lib}.



End Records.


Lemma apply_writes_outside ws d p :
  Forall (λ out, out.1 ≠ p) ws → apply_writes ws d !! p = d !! p.
Proof.
  revert d. induction ws as [|out ws IH]; intros d Hws; [done|].
  apply Forall_cons in Hws as [Hout Hws].
  change (apply_writes ws (<[out.1 := out.2]> d) !! p = d !! p).
  rewrite (IH _ Hws). by apply lookup_insert_ne.
Qed.

Section Inputs.
Context `{lib : Base64Lib}.

Lemma for_each_writes_outputs client files : ∀ w,
  ∃ ws,
    writes (for_each files (collect_data_body client) w).2 = writes w ++ ws ∧
    disk (for_each files (collect_data_body client) w).2 = apply_writes ws (disk w) ∧
    Forall (λ out, ∃ file, file ∈ files ∧ excel_path file = Ret out.1) ws.
Proof.
  induction files as [|file files IH]; intros w.
  - exists []. by rewrite app_nil_r.
  - rewrite for_each_cons.
    destruct (collect_data_body_grows client file w) as (ls & cs & ws1 & Hw1 & _ & Hws & _).
    assert (Hall : Forall (λ out, ∃ f, f ∈ file :: files ∧ excel_path f = Ret out.1) ws1).
    { destruct Hws as [(excel & data & He & -> & _)|[-> _]]; [|done].
      constructor; [|done]. exists file. split; [by left|done]. }
    destruct (collect_data_body client file w) as [[[]|e] w1]; cbn [snd] in Hw1 |- *.
    + destruct (IH w1) as (ws2 & Hwr & Hd & Hall2). exists (ws1 ++ ws2).
      rewrite Hwr, Hd, Hw1. cbn. rewrite apply_writes_app, app_assoc. split; [done|].
      split; [done|]. apply Forall_app. split; [done|].
      eapply Forall_impl; [exact Hall2|]. intros out (f & Hf & He). exists f.
      split; [by right|done].
    + exists ws1. rewrite Hw1. by cbn.
Qed.

End Inputs.

(** X4.  A run of the batch writes only at output paths of files of its
    list, however it ends, and none of these is under the input directory:
    the run creates and changes no file under [tables/], so it cannot
    damage its inputs nor feed discovery with its outputs. *)
Theorem inputs_are_never_written `{lib : Base64Lib} client files w :
  ∃ ws,
    writes (collect_data client files w).2 = writes w ++ ws ∧
    Forall (λ out, ∃ file, file ∈ files ∧ excel_path file = Ret out.1 ∧
                           ¬ IMAGE_DIR `prefix_of` out.1) ws ∧
    ∀ p, IMAGE_DIR `prefix_of` p → disk (collect_data client files w).2 !! p = disk w !! p.
Proof.
  rewrite collect_data_run.
  destruct (for_each_writes_outputs client files (push_dir OUTPUT (push_log start_record w)))
    as (ws & Hwr & Hd & Hall).
  exists ws. split; [exact Hwr|]. split.
  - eapply Forall_impl; [exact Hall|]. intros out (file & Hf & He).
    exists file. split; [done|]. split; [done|]. by apply (excel_path_outside file).
  - intros p Hp. rewrite Hd. cbn. apply apply_writes_outside.
    eapply Forall_impl; [exact Hall|]. intros out (file & _ & He) Heq.
    apply (excel_path_outside _ _ He). by rewrite Heq.
Qed.

Lemma apply_writes_snoc ws out d :
  apply_writes (ws ++ [out]) d = <[out.1 := out.2]> (apply_writes ws d).
Proof. by rewrite apply_writes_app. Qed.

(** The content of a path after some writes: what the last write to the
    path put there, or what was there when nothing was written to it. *)
Lemma apply_writes_lookup ws d p :
  apply_writes ws d !! p =
  match last (filter (λ out, out.1 = p) ws) with
  | Some out => Some out.2
  | None => d !! p
  end.
Proof.
  induction ws as [|out ws IH] using rev_ind; [done|].
  rewrite apply_writes_snoc, filter_app.
  destruct (decide (out.1 = p)) as [E|E].
  - rewrite filter_cons_True, filter_nil, last_snoc by done. rewrite E. apply lookup_insert_eq.
  - rewrite filter_cons_False, filter_nil, app_nil_r by done.
    by rewrite lookup_insert_ne.
Qed.

Section Completed.
Context `{lib : Base64Lib}.

Lemma for_each_completed client files : ∀ w w',
  for_each files (collect_data_body client) w = (Ret tt, w') →
  ∃ ls cs ws,
    w' = grow ls cs ws w ∧
    progress ls = flat_map (λ file, [processing_record file; written_record file]) files ∧
    Forall2 (λ file out, excel_path file = Ret out.1) files ws.
Proof.
  induction files as [|file files IH]; intros w w'.
  - intros [= <-]. exists [], [], []. by rewrite grow_nil.
  - rewrite for_each_cons.
    destruct (collect_data_body_grows client file w) as (ls1 & cs1 & ws1 & Hw1 & _ & Hws & _).
    destruct (collect_data_body client file w) as [[[]|e] w1]; [|done].
    cbn [fst snd] in Hw1, Hws. intros Hrun.
    destruct Hws as [(excel & data & He & -> & _ & Hprog)|(_ & [e [=]] & _)].
    destruct (IH w1 w' Hrun) as (ls2 & cs2 & ws2 & -> & Hprog2 & Hall).
    exists (ls1 ++ ls2), (cs1 ++ cs2), ([(excel, data)] ++ ws2).
    rewrite Hw1, grow_grow. split; [done|]. split.
    + rewrite progress_app, Hprog, Hprog2. done.
    + by constructor.
Qed.

End Completed.

(** X5.  When several files of a batch have the same output path, the
    last of them in the list wins: in a run that returns, the output path of
    a file that no later file of the list shares holds at the end the bytes
    the run wrote for that file, whatever earlier files wrote there. *)
Theorem later_file_wins `{lib : Base64Lib} client pre file post w w' :
  collect_data client (pre ++ file :: post) w = (Ret tt, w') →
  Forall (λ later, excel_path later ≠ excel_path file) post →
  ∃ excel data before after,
    excel_path file = Ret excel ∧
    writes w' = writes w ++ before ++ (excel, data) :: after ∧
    Forall2 (λ f out, excel_path f = Ret out.1) pre before ∧
    Forall2 (λ f out, excel_path f = Ret out.1) post after ∧
    disk w' !! excel = Some data.
Proof.
  rewrite collect_data_run. intros Hrun Hpost.
  destruct (for_each_completed client _ _ _ Hrun) as (ls & cs & ws & -> & _ & Hall).
  apply Forall2_app_inv_l in Hall as (before & rest & Hbefore & Hrest & ->).
  apply Forall2_cons_inv_l in Hrest as ([excel data] & after & He & Hafter & ->).
  cbn [fst] in He. exists excel, data, before, after.
  split; [done|]. split; [done|]. split; [done|]. split; [done|].
  cbn. rewrite apply_writes_app. cbn.
  change (apply_writes after (<[excel := data]> (apply_writes before (disk w))) !! excel
          = Some data).
  rewrite apply_writes_outside; [apply lookup_insert_eq|].
  clear -Hafter Hpost He. induction Hafter as [|f out post after Hf Hafter IH]; [done|].
  apply Forall_cons in Hpost as [Hne Hpost]. constructor; [|by apply IH].
  intros Heq. apply Hne. by rewrite Hf, He, Heq.
Qed.

Lemma later_file_wins_witness :
  let first := ["tables"; "a.png"] in
  let second := ["tables"; "sub"; "a.png"] in
  let third := ["tables"; "b.png"] in
  let w := initial_world {[ first := ["h"%byte; "i"%byte]; second := []; third := ["b"%byte] ]} in
  let w' := (collect_data (lib := sample_base64) answering_client [first; second; third] w).2 in
  (collect_data (lib := sample_base64) answering_client ([first] ++ second :: [third]) w
     = (Ret tt, w') ∧
   Forall (λ later, excel_path later ≠ excel_path second) [third]) ∧
  ∃ excel data before after,
    excel_path second = Ret excel ∧
    writes w' = writes w ++ before ++ (excel, data) :: after ∧
    Forall2 (λ f out, excel_path f = Ret out.1) [first] before ∧
    Forall2 (λ f out, excel_path f = Ret out.1) [third] after ∧
    disk w' !! excel = Some data.
Proof.
  intros first second third w w'.
  assert (Hrun : collect_data (lib := sample_base64) answering_client
                   ([first] ++ second :: [third]) w = (Ret tt, w')) by (vm_compute; reflexivity).
  assert (Hpost : Forall (λ later, excel_path later ≠ excel_path second) [third]).
  { constructor; [|constructor]. vm_compute. discriminate. }
  split; [split; [exact Hrun|exact Hpost]|].
  exact (later_file_wins (lib := sample_base64) answering_client [first] second [third] w w'
           Hrun Hpost).
Defined.

(** X6.  A run of the batch that returns has logged, with the logger of
    [collect_data], the start record and then, for every file in the order
    of the list, the record that it is processed and the record that it is
    written, and nothing else; and it has written one file per file of the
    list, in that order, each at the output path of its file. *)
Theorem completed_run_reports_every_file `{lib : Base64Lib} client files w w' :
  collect_data client files w = (Ret tt, w') →
  ∃ ls ws,
    logs w' = logs w ++ ls ∧
    progress ls = start_record ::
      flat_map (λ file, [processing_record file; written_record file]) files ∧
    writes w' = writes w ++ ws ∧
    Forall2 (λ file out, excel_path file = Ret out.1) files ws.
Proof.
  rewrite collect_data_run. intros Hrun.
  destruct (for_each_completed client files _ _ Hrun) as (ls & cs & ws & -> & Hprog & Hall).
  exists (start_record :: ls), ws. split; [|split; [|split]].
  - cbn. by rewrite <- app_assoc.
  - unfold start_record. by rewrite progress_own, Hprog.
  - done.
  - done.
Qed.

Lemma completed_run_reports_every_file_witness :
  let files := [["tables"; "a.png"]; ["tables"; "blank.png"]; ["tables"; "b.pdf"]] in
  let w := initial_world sample_disk in
  let w' := (collect_data (lib := sample_base64) (failing_at 1) files w).2 in
  collect_data (lib := sample_base64) (failing_at 1) files w = (Ret tt, w') ∧
  ∃ ls ws,
    logs w' = logs w ++ ls ∧
    progress ls = start_record ::
      flat_map (λ file, [processing_record file; written_record file]) files ∧
    writes w' = writes w ++ ws ∧
    Forall2 (λ file out, excel_path file = Ret out.1) files ws.
Proof.
  intros files w w'.
  assert (Hrun : collect_data (lib := sample_base64) (failing_at 1) files w = (Ret tt, w'))
    by (vm_compute; reflexivity).
  split; [exact Hrun|].
  exact (completed_run_reports_every_file (lib := sample_base64) (failing_at 1) files w w' Hrun).
Defined.

(** ** The encoder and the client, beyond the failures they absorb *)

Lemma raw_limit_iff content :
  encoded_size content ≤ MAX_SIZE ↔ len_bytes content ≤ 5505024.
Proof.
  rewrite encoded_size_by_length. change MAX_SIZE with 7340032.
  pose proof (Z.div_mod (len_bytes content + 2) 3 ltac:(lia)) as Hdm.
  pose proof (Z.mod_pos_bound (len_bytes content + 2) 3 ltac:(lia)) as Hm.
  lia.
Qed.

(** X7.  The limit on the encoding is a limit of 5505024 bytes on the
    file: the encoding of a file has four characters for every three bytes,
    rounded up; a file of at most 5505024 bytes is returned encoded, with
    nothing logged; a longer one is refused with the error record. *)
Theorem limit_in_bytes_of_the_file file w content :
  disk w !! file = Some content →
  encoded_size content = 4 * ((len_bytes content + 2) / 3) ∧
  (len_bytes content ≤ 5505024 → _load_file file w = (Ret (encoded_text content), w)) ∧
  (5505024 < len_bytes content →
   _load_file file w =
     (Ret "", push_log (mkLog "_load_file" ERROR (too_large_msg (encoded_size content)) []) w)).
Proof.
  intros Hf. split; [apply encoded_size_by_length|]. split; intros Hn.
  - apply load_file_accepted; [done|]. by apply raw_limit_iff.
  - apply (load_file_too_large file w content Hf).
    destruct (Z.le_gt_cases (encoded_size content) MAX_SIZE) as [H|H]; [|lia].
    apply raw_limit_iff in H. lia.
Qed.

Lemma limit_in_bytes_of_the_file_witness :
  let big := ["tables"; "big.png"] in
  let w := initial_world {[ big := largest_content ]} in
  (disk w !! big = Some largest_content ∧ len_bytes largest_content ≤ 5505024) ∧
  encoded_size largest_content = 4 * ((len_bytes largest_content + 2) / 3) ∧
  (len_bytes largest_content ≤ 5505024 →
   _load_file big w = (Ret (encoded_text largest_content), w)) ∧
  (5505024 < len_bytes largest_content →
   _load_file big w =
     (Ret "", push_log (mkLog "_load_file" ERROR
                          (too_large_msg (encoded_size largest_content)) []) w)).
Proof.
  intros big w.
  assert (Hf : disk w !! big = Some largest_content) by apply lookup_singleton_eq.
  assert (Hn : len_bytes largest_content ≤ 5505024).
  { unfold largest_content. rewrite len_bytes_replicate; lia. }
  split; [exact (conj Hf Hn)|].
  exact (limit_in_bytes_of_the_file big w largest_content Hf).
Defined.

(** X8.  The success path: when the payload of the file is accepted, the
    provider answers the call and the decoder reads the [Data] of the
    answer, the client returns the decoded bytes, after logging the
    parameters and the request id at DEBUG; the orchestrator writes those
    bytes at the output path of the file, between its two progress
    records, and one request has been sent. *)
Theorem recognized_table_is_written `{lib : Base64Lib} client file w content response data :
  disk w !! file = Some content → accepted content →
  (∀ req, client (length (calls w)) req = Ret response) →
  b64decode (Data response) = Ret data →
  (∀ pdf_page,
     get_ocr_result client file pdf_page w =
       (Ret data,
        push_log (result_record response)
          (push_call (request_params (encoded_text content) file pdf_page)
             (push_log (params_record (request_params (encoded_text content) file pdf_page)) w)))) ∧
  ∃ excel w',
    excel_path file = Ret excel ∧
    collect_data_body client file w = (Ret tt, w') ∧
    writes w' = writes w ++ [(excel, data)] ∧
    disk w' !! excel = Some data ∧
    calls w' = calls w ++ [request_params (encoded_text content) file None] ∧
    logs w' = logs w ++
      [processing_record file;
       params_record (request_params (encoded_text content) file None);
       mkLog "get_ocr_result" DEBUG (OStr "已获取结果, 请求ID: %s") [OStr (RequestId response)];
       written_record file].
Proof.
  intros Hf Ha Hc Hd. split.
  - intros pdf_page. rewrite (get_ocr_result_accepted _ _ _ _ _ Hf Ha). cbv zeta.
    by rewrite Hc, Hd.
  - destruct (excel_path_total file) as [excel He]. exists excel.
    rewrite collect_data_body_run.
    rewrite (get_ocr_result_accepted _ _ _ (push_log _ w) _ Hf Ha). cbv zeta.
    cbn [calls push_log]. rewrite Hc, Hd, He. eexists. split; [done|]. split; [reflexivity|].
    cbn. rewrite lookup_insert_eq, <- !app_assoc. done.
Qed.

Lemma recognized_table_is_written_witness :
  let file := ["tables"; "a.png"] in
  let content := ["h"%byte; "i"%byte] in
  let response := mkResponse "aGk=" "req-1" in
  let w := initial_world {[ file := content ]} in
  (disk w !! file = Some content ∧ accepted content ∧
   (∀ req, answering_client (length (calls w)) req = Ret response) ∧
   b64decode (Base64Lib := sample_base64) (Data response) = Ret content) ∧
  (∀ pdf_page,
     get_ocr_result (lib := sample_base64) answering_client file pdf_page w =
       (Ret content,
        push_log (result_record response)
          (push_call (request_params (encoded_text content) file pdf_page)
             (push_log (params_record (request_params (encoded_text content) file pdf_page)) w)))) ∧
  ∃ excel w',
    excel_path file = Ret excel ∧
    collect_data_body (lib := sample_base64) answering_client file w = (Ret tt, w') ∧
    writes w' = writes w ++ [(excel, content)] ∧
    disk w' !! excel = Some content ∧
    calls w' = calls w ++ [request_params (encoded_text content) file None] ∧
    logs w' = logs w ++
      [processing_record file;
       params_record (request_params (encoded_text content) file None);
       mkLog "get_ocr_result" DEBUG (OStr "已获取结果, 请求ID: %s") [OStr (RequestId response)];
       written_record file].
Proof.
  intros file content response w.
  assert (Hf : disk w !! file = Some content) by apply lookup_singleton_eq.
  assert (Ha : accepted content) by (split; [discriminate|vm_compute; discriminate]).
  assert (Hc : ∀ req, answering_client (length (calls w)) req = Ret response) by reflexivity.
  assert (Hd : b64decode (Base64Lib := sample_base64) (Data response) = Ret content)
    by reflexivity.
  split; [exact (conj Hf (conj Ha (conj Hc Hd)))|].
  exact (recognized_table_is_written (lib := sample_base64) answering_client file w content
           response content Hf Ha Hc Hd).
Defined.

(** X9.  The client catches the exception of the provider and no other:
    when the call raises another exception, or the decoder raises on the
    [Data] of the answer, the exception comes out of the client, after the
    request has been sent and with no error record; the orchestrator then
    stops with that exception and writes nothing for the file. *)
Theorem other_exceptions_propagate `{lib : Base64Lib} client file w content e :
  disk w !! file = Some content → accepted content → uncaught e →
  (∀ req, client (length (calls w)) req = Raise e) ∨
  (∃ response, (∀ req, client (length (calls w)) req = Ret response) ∧
               b64decode (Data response) = Raise e) →
  (∀ pdf_page,
     get_ocr_result client file pdf_page w =
       (Raise e,
        push_call (request_params (encoded_text content) file pdf_page)
          (push_log (params_record (request_params (encoded_text content) file pdf_page)) w))) ∧
  ∃ w',
    collect_data_body client file w = (Raise e, w') ∧
    writes w' = writes w ∧ disk w' = disk w ∧
    logs w' = logs w ++
      [processing_record file; params_record (request_params (encoded_text content) file None)].
Proof.
  intros Hf Ha He Hc.
  assert (Hget : ∀ pdf_page v, disk v = disk w → calls v = calls w →
            get_ocr_result client file pdf_page v =
              (Raise e,
               push_call (request_params (encoded_text content) file pdf_page)
                 (push_log (params_record (request_params (encoded_text content) file pdf_page)) v))).
  { intros pdf_page v Hdisk Hcalls.
    rewrite (get_ocr_result_accepted client file pdf_page v content); [|by rewrite Hdisk|done].
    cbv zeta. rewrite Hcalls.
    destruct Hc as [Hc|(response & Hc & Hd)]; rewrite Hc.
    - destruct e; try done. by destruct (He code message).
    - rewrite Hd. destruct e; try done. by destruct (He code message). }
  split; [intros; by apply Hget|].
  rewrite collect_data_body_run, (Hget None (push_log _ w)) by done.
  eexists. split; [reflexivity|]. cbn. by rewrite <- app_assoc.
Qed.

Lemma other_exceptions_propagate_witness :
  let file := ["tables"; "a.png"] in
  let content := ["h"%byte; "i"%byte] in
  let client : OcrClient := λ _ _, Ret (mkResponse "not base64" "req-2") in
  let w := initial_world {[ file := content ]} in
  (disk w !! file = Some content ∧ accepted content ∧ uncaught BinasciiError) ∧
  (∀ pdf_page,
     get_ocr_result (lib := sample_base64) client file pdf_page w =
       (Raise BinasciiError,
        push_call (request_params (encoded_text content) file pdf_page)
          (push_log (params_record (request_params (encoded_text content) file pdf_page)) w))) ∧
  ∃ w',
    collect_data_body (lib := sample_base64) client file w = (Raise BinasciiError, w') ∧
    writes w' = writes w ∧ disk w' = disk w ∧
    logs w' = logs w ++
      [processing_record file; params_record (request_params (encoded_text content) file None)].
Proof.
  intros file content client w.
  assert (Hf : disk w !! file = Some content) by apply lookup_singleton_eq.
  assert (Ha : accepted content) by (split; [discriminate|vm_compute; discriminate]).
  assert (He : uncaught BinasciiError) by (intros code message; discriminate).
  split; [exact (conj Hf (conj Ha He))|].
  apply (other_exceptions_propagate (lib := sample_base64) client file w content BinasciiError
           Hf Ha He).
  right. exists (mkResponse "not base64" "req-2"). split; reflexivity.
Defined.

(** X10.  A file of the list that cannot be opened stops the batch: when
    the files before it are readable and the provider is well behaved, the
    run writes the outputs of the files before it, then raises the error of
    opening it; no record of the encoder or the client is logged for it, no
    request is sent for it, and the files after it get no output. *)
Theorem unreadable_file_stops_the_batch `{lib : Base64Lib} client pre file post w :
  well_behaved client →
  Forall (λ f, is_Some (disk w !! f)) pre →
  IMAGE_DIR `prefix_of` file → disk w !! file = None →
  ∃ w' ws,
    collect_data client (pre ++ file :: post) w = (Raise (OSError file), w') ∧
    writes w' = writes w ++ ws ∧
    Forall2 (artifact_of client) pre ws ∧
    calls w' = calls (collect_data client pre w).2 ∧
    logs w' = logs (collect_data client pre w).2 ++ [processing_record file].
Proof.
  intros Hwb Hpre Hin Hnone. rewrite !collect_data_run, for_each_app.
  set (w0 := push_dir OUTPUT (push_log start_record w)).
  destruct (for_each_outputs client pre Hwb w0 Hpre) as (wB & ws & Hrun & Hws & Hall & _ & _).
  pose proof (for_each_keeps_inputs client pre file Hin w0) as Hd.
  rewrite Hrun in Hd |- *. cbn [snd] in Hd |- *.
  rewrite for_each_cons, collect_data_body_summary, Hd. cbn [disk push_dir push_log w0].
  rewrite Hnone. cbn [recognition].
  eexists _, ws. split; [reflexivity|]. cbn. rewrite app_nil_r. done.
Qed.

Lemma unreadable_file_stops_the_batch_witness :
  let pre := [["tables"; "a.png"]] in
  let file := ["tables"; "gone.png"] in
  let post := [["tables"; "b.pdf"]] in
  let w := initial_world sample_disk in
  (well_behaved (lib := sample_base64) answering_client ∧
   Forall (λ f, is_Some (disk w !! f)) pre ∧
   IMAGE_DIR `prefix_of` file ∧ disk w !! file = None) ∧
  ∃ w' ws,
    collect_data (lib := sample_base64) answering_client (pre ++ file :: post) w
      = (Raise (OSError file), w') ∧
    writes w' = writes w ++ ws ∧
    Forall2 (artifact_of (lib := sample_base64) answering_client) pre ws ∧
    calls w' = calls (collect_data (lib := sample_base64) answering_client pre w).2 ∧
    logs w' = logs (collect_data (lib := sample_base64) answering_client pre w).2
                ++ [processing_record file].
Proof.
  intros pre file post w.
  assert (Hpre : Forall (λ f, is_Some (disk w !! f)) pre).
  { repeat constructor. vm_compute. eauto. }
  assert (Hin : IMAGE_DIR `prefix_of` file) by (by exists ["gone.png"]).
  assert (Hnone : disk w !! file = None) by (vm_compute; reflexivity).
  split; [exact (conj answering_client_well_behaved (conj Hpre (conj Hin Hnone)))|].
  exact (unreadable_file_stops_the_batch (lib := sample_base64) answering_client pre file post w
           answering_client_well_behaved Hpre Hin Hnone).
Defined.

(** ** The output path, in general *)

Lemma drop_len n s :
  (n ≤ String.length s)%nat → PyStr.len (PyStr.drop n s) = PyStr.len s - Z.of_nat n.
Proof.
  unfold PyStr.len. revert s. induction n as [|n IH]; intros s Hn.
  - destruct s; cbn; lia.
  - destruct s as [|a s]; [cbn in Hn; lia|].
    change (PyStr.drop (S n) (String a s)) with (PyStr.drop n s).
    cbn [String.length] in Hn |- *. rewrite IH by lia. lia.
Qed.

Lemma take_nonempty n s : (0 < n)%nat → s ≠ "" → PyStr.take n s ≠ "".
Proof. destruct n; [lia|]. by destruct s. Qed.

(** When the name splits at a dot, the suffix is not empty. *)
Lemma suffix_of_split p :
  PurePath.dot_splits (PurePath.name p) (PyStr.rfind "." (PurePath.name p)) = true →
  PurePath.suffix p ≠ "".
Proof.
  intros Hd. unfold PurePath.suffix. rewrite Hd.
  apply dot_splits_inside in Hd.
  unfold PyStr.slice_from. rewrite norm_index_inside by lia.
  destruct (rfind_drop "." (PurePath.name p)) as [t Ht]; [lia|]. by rewrite Ht.
Qed.

Lemma stem_nonempty p : PurePath.name p ≠ "" → PurePath.stem p ≠ "".
Proof.
  intros Hn. unfold PurePath.stem.
  destruct (PurePath.dot_splits _ _) eqn:Hd; [|done].
  apply dot_splits_inside in Hd.
  unfold PyStr.slice_to. rewrite norm_index_inside by lia.
  apply take_nonempty; [lia|done].
Qed.

(** [with_suffix] puts the new suffix in the place of the old one: the new
    name is the stem followed by the suffix. *)
Lemma with_suffix_xlsx q :
  PurePath.name q ≠ "" →
  with_suffix q ".xlsx" = Ret (removelast q ++ [PurePath.stem q +:+ ".xlsx"]).
Proof.
  intros Hn. unfold with_suffix.
  change (PyStr.contains "/" ".xlsx") with false.
  change (PyStr.startswith "." ".xlsx") with true.
  change (".xlsx" =? "")%string with false.
  change (".xlsx" =? ".")%string with false. cbn [negb andb orb].
  destruct (String.eqb_spec (PurePath.name q) ""); [done|].
  destruct (PurePath.dot_splits (PurePath.name q) (PyStr.rfind "." (PurePath.name q))) eqn:Hd.
  - pose proof (suffix_of_split q Hd) as Hs.
    destruct (String.eqb_spec (PurePath.suffix q) ""); [done|].
    do 3 f_equal. unfold PurePath.suffix, PurePath.stem. rewrite Hd.
    apply dot_splits_inside in Hd. unfold PyStr.len in Hd.
    unfold PyStr.slice_from, PyStr.slice_to at 2.
    rewrite !norm_index_inside by (unfold PyStr.len; lia).
    unfold PyStr.slice_to, PyStr.norm_index. rewrite drop_len by lia.
    f_equal. f_equal. unfold PyStr.len.
    destruct (Z.ltb_spec (- (Z.of_nat (String.length (PurePath.name q))
                             - Z.of_nat (Z.to_nat (PyStr.rfind "." (PurePath.name q))))) 0); lia.
  - unfold PurePath.suffix, PurePath.stem. rewrite Hd. done.
Qed.

Lemma excel_path_beside file :
  PurePath.stem file = "" ∨ PurePath.stem file = "." →
  excel_path file = Ret ["output.xlsx"].
Proof.
  intros Hs. unfold excel_path, PurePath.truediv. by rewrite bool_decide_eq_true_2.
Qed.

Lemma excel_path_inside file :
  ¬ (PurePath.stem file = "" ∨ PurePath.stem file = ".") →
  excel_path file = Ret ["output"; PurePath.stem [PurePath.stem file] +:+ ".xlsx"].
Proof.
  intros Hs. unfold excel_path, PurePath.truediv. rewrite bool_decide_eq_false_2 by done.
  rewrite with_suffix_xlsx.
  - rewrite (stem_by_name (OUTPUT ++ [PurePath.stem file]) [PurePath.stem file]); [done|].
    by rewrite name_snoc.
  - rewrite name_snoc. intros E. apply Hs. by left.
Qed.

(** X11.  The output path of a file, whatever its name: the stem of its
    stem, with [.xlsx], in the output directory; so a name with two
    extensions loses both ([a.b.png] and [a.png] both give
    [output/a.xlsx]).  When the stem is ["."] (a file named [..png]) or
    empty, the path is [output.xlsx], beside the output directory. *)
Theorem excel_path_formula file :
  excel_path file =
  Ret (if bool_decide (PurePath.stem file = "" ∨ PurePath.stem file = ".")
       then ["output.xlsx"]
       else ["output"; PurePath.stem [PurePath.stem file] +:+ ".xlsx"]).
Proof.
  case_bool_decide as Hs.
  - by apply excel_path_beside.
  - by apply excel_path_inside.
Qed.

Lemma rfind_app_found c t u :
  0 ≤ PyStr.rfind c u → PyStr.rfind c (t +:+ u) = PyStr.len t + PyStr.rfind c u.
Proof.
  intros Hu. unfold PyStr.len. induction t as [|a t IH].
  { change ("" +:+ u) with u. cbn [String.length]. lia. }
  change (String a t +:+ u) with (String a (t +:+ u)). cbn [PyStr.rfind String.length].
  rewrite IH. destruct (Z.leb_spec 0 (Z.of_nat (String.length t) + PyStr.rfind c u)); lia.
Qed.

Lemma drop_app_length t u : PyStr.drop (String.length t) (t +:+ u) = u.
Proof. induction t as [|a t IH]; [by destruct u|exact IH]. Qed.

Lemma suffix_of_appended d t :
  t ≠ "" → PurePath.suffix (d ++ [t +:+ ".xlsx"]) = ".xlsx".
Proof.
  intros Ht. unfold PurePath.suffix. rewrite name_snoc.
  rewrite (rfind_app_found "." t ".xlsx") by done.
  change (PyStr.rfind "." ".xlsx") with 0. rewrite Z.add_0_r.
  assert (Hlen : 0 < PyStr.len t).
  { unfold PyStr.len. destruct t; [done|cbn; lia]. }
  assert (Hd : PurePath.dot_splits (t +:+ ".xlsx") (PyStr.len t) = true).
  { unfold PurePath.dot_splits, PyStr.len in *. rewrite str_length_app.
    apply andb_true_iff. rewrite !Z.ltb_lt. cbn [String.length]. lia. }
  rewrite Hd. unfold PyStr.slice_from. rewrite norm_index_inside.
  - unfold PyStr.len. rewrite Nat2Z.id. apply drop_app_length.
  - unfold PyStr.len in *. rewrite str_length_app. lia.
Qed.

(** X12.  Every file has an output path, whose suffix is [.xlsx]: the
    orchestrator never writes a file with another extension, and never one
    that discovery would take for an input. *)
Theorem output_path_has_xlsx_suffix file :
  ∃ excel,
    excel_path file = Ret excel ∧
    PurePath.suffix excel = ".xlsx" ∧
    (PurePath.suffix excel ∉ SUPPORT_SUFFIX) ∧
    (excel = ["output.xlsx"] ∨ ∃ name, excel = ["output"; name]).
Proof.
  assert (Hno : ".xlsx" ∉ SUPPORT_SUFFIX).
  { unfold SUPPORT_SUFFIX. rewrite !not_elem_of_cons. repeat split; try done.
    apply not_elem_of_nil. }
  destruct (decide (PurePath.stem file = "" ∨ PurePath.stem file = ".")) as [Hs|Hs].
  - exists ["output.xlsx"]. split; [by apply excel_path_beside|].
    split; [done|]. split; [exact Hno|by left].
  - eexists. split; [by apply excel_path_inside|].
    assert (Hsuf : PurePath.suffix ["output"; PurePath.stem [PurePath.stem file] +:+ ".xlsx"]
                   = ".xlsx").
    { apply (suffix_of_appended ["output"]). apply stem_nonempty.
      cbn. intros E. apply Hs. by left. }
    rewrite Hsuf. split; [done|]. split; [exact Hno|right; eauto].
Qed.

(** ** Discovery, beyond the filter *)

(** X13.  What discovery returns, as the code has it: a path is returned
    exactly when it is a name that the walk lists as a file under the input
    directory, at any depth, and its suffix is one of [.png], [.jpg],
    [.jpeg] and [.pdf], compared as written, so that a suffix in capitals,
    a name with no suffix and a name that only starts with a dot are
    skipped.  What is returned is under the input directory; whether it can
    be opened is not looked at. *)
Theorem discovery_is_exact tables p :
  (In p (get_all_files tables) ↔
   In p (tree_files IMAGE_DIR tables) ∧
   PurePath.suffix p ∈ [".png"; ".jpg"; ".jpeg"; ".pdf"]) ∧
  (In p (get_all_files tables) → IMAGE_DIR `prefix_of` p).
Proof.
  split; [apply get_all_files_spec|apply get_all_files_under].
Qed.

Lemma well_formed_all es :
  foldr (λ e P, well_formed e ∧ P) True es ↔ Forall well_formed es.
Proof.
  induction es as [|e es IH]; cbn; [by split|].
  rewrite Forall_cons, IH. done.
Qed.

Lemma prefix_snoc_inj (top : Path) a b x :
  (top ++ [a]) `prefix_of` x → (top ++ [b]) `prefix_of` x → a = b.
Proof.
  intros [k1 ->] [k2 E]. rewrite <- !app_assoc in E.
  apply app_inv_head in E. by injection E.
Qed.

Lemma same_name_same_entry es e1 e2 :
  NoDup (map entry_name es) → e1 ∈ es → e2 ∈ es → entry_name e1 = entry_name e2 → e1 = e2.
Proof.
  induction es as [|e es IH]; intros Hnd H1 H2 E; [by apply elem_of_nil in H1|].
  cbn in Hnd. apply NoDup_cons in Hnd as [Hnot Hnd].
  apply elem_of_cons in H1 as [->|H1]; apply elem_of_cons in H2 as [->|H2]; try done.
  - destruct Hnot. rewrite E. apply list_elem_of_In, in_map, list_elem_of_In, H2.
  - destruct Hnot. rewrite <- E. apply list_elem_of_In, in_map, list_elem_of_In, H1.
  - by apply IH.
Qed.

(** What is collected from the walk of an entry lies under that entry. *)
Lemma collect_walk_prefix top e x :
  In x (collect_supported (walk_entry top e)) → (top ++ [entry_name e]) `prefix_of` x.
Proof.
  destruct e as [n c|d sub]; [intros []|].
  rewrite walk_entry_dir. cbn [entry_name]. intros Hx.
  apply (tree_collected sub) in Hx.
  - destruct Hx as [(e & He & Hx)%in_flat_map _]. by apply (entry_files_under e).
  - apply Forall_forall. intros e _. apply every_entry_collected.
Qed.

Lemma collect_supported_app l1 l2 :
  collect_supported (l1 ++ l2) = collect_supported l1 ++ collect_supported l2.
Proof. unfold collect_supported. apply flat_map_app. Qed.

Lemma in_collect_flat_walk top es x :
  In x (collect_supported (flat_map (walk_entry top) es)) →
  ∃ e, e ∈ es ∧ In x (collect_supported (walk_entry top e)).
Proof.
  induction es as [|e es IH]; [intros []|].
  cbn [flat_map]. rewrite collect_supported_app, in_app_iff. intros [Hx|Hx].
  - exists e. split; [by left|done].
  - destruct (IH Hx) as (e' & He' & Hx'). exists e'. split; [by right|done].
Qed.

Lemma direct_files_NoDup top ns :
  NoDup ns → Forall (λ n, n ≠ "" ∧ n ≠ ".") ns → NoDup (flat_map (keep_supported top) ns).
Proof.
  induction ns as [|n ns IH]; intros Hnd Hv; [constructor|].
  apply NoDup_cons in Hnd as [Hnot Hnd]. apply Forall_cons in Hv as [[Hn1 Hn2] Hv].
  cbn [flat_map]. apply NoDup_app. split; [|split; [|by apply IH]].
  - unfold keep_supported. case_bool_decide; [apply NoDup_singleton|constructor].
  - intros x Hx%list_elem_of_In Hx'%list_elem_of_In.
    apply in_keep_supported in Hx as [-> _].
    apply in_flat_map in Hx' as (n' & Hn' & Hx').
    apply in_keep_supported in Hx' as [Hx' _].
    rewrite !truediv_component in Hx' by
      (try done; by apply (proj1 (Forall_forall _ _) Hv), list_elem_of_In).
    apply app_inv_head in Hx'. injection Hx' as ->.
    by apply Hnot, list_elem_of_In.
Qed.

Lemma nondirs_names es :
  NoDup (map entry_name es) → Forall well_formed es →
  NoDup (nondirs es) ∧ Forall (λ n, n ≠ "" ∧ n ≠ ".") (nondirs es).
Proof.
  induction es as [|e es IH]; intros Hnd Hwf; [by split; constructor|].
  cbn in Hnd. apply NoDup_cons in Hnd as [Hnot Hnd]. apply Forall_cons in Hwf as [He Hwf].
  destruct (IH Hnd Hwf) as [IH1 IH2].
  destruct e as [n c|d sub]; cbn; [|done].
  split; [|by constructor].
  apply NoDup_cons. split; [|done]. intros Hn. apply Hnot.
  apply list_elem_of_In, in_nondirs in Hn as [c' Hc'].
  apply list_elem_of_In. by apply (in_map entry_name _ (File n c')).
Qed.

Lemma walks_NoDup top es :
  NoDup (map entry_name es) →
  Forall (λ e, ∀ top, NoDup (collect_supported (walk_entry top e))) es →
  NoDup (collect_supported (flat_map (walk_entry top) es)).
Proof.
  induction es as [|e es IH]; intros Hnd Hall; [constructor|].
  cbn in Hnd. apply NoDup_cons in Hnd as [Hnot Hnd]. apply Forall_cons in Hall as [He Hall].
  cbn [flat_map]. rewrite collect_supported_app. apply NoDup_app.
  split; [apply He|]. split; [|by apply IH].
  intros x Hx%list_elem_of_In Hx'%list_elem_of_In.
  apply collect_walk_prefix in Hx.
  apply in_collect_flat_walk in Hx' as (e' & He' & Hx'). apply collect_walk_prefix in Hx'.
  apply Hnot. rewrite (prefix_snoc_inj top _ _ x Hx Hx').
  apply list_elem_of_In, in_map, list_elem_of_In, He'.
Qed.

Lemma os_walk_NoDup top es :
  NoDup (map entry_name es) → Forall well_formed es →
  Forall (λ e, ∀ top, NoDup (collect_supported (walk_entry top e))) es →
  NoDup (collect_supported (os_walk top es)).
Proof.
  intros Hnd Hwf Hall. unfold os_walk.
  change (NoDup (flat_map (keep_supported top) (nondirs es) ++
                 collect_supported (flat_map (walk_entry top) es))).
  destruct (nondirs_names es Hnd Hwf) as [Hn1 Hn2].
  apply NoDup_app. split; [by apply direct_files_NoDup|]. split; [|by apply walks_NoDup].
  intros x Hx%list_elem_of_In Hx'%list_elem_of_In.
  apply in_flat_map in Hx as (n & Hn & Hx). apply in_keep_supported in Hx as [-> _].
  rewrite truediv_component in Hx' by
    (by apply (proj1 (Forall_forall _ _) Hn2), list_elem_of_In).
  apply in_nondirs in Hn as [c Hc].
  apply in_collect_flat_walk in Hx' as (e' & He' & Hx').
  pose proof (collect_walk_prefix _ _ _ Hx') as Hpre.
  assert (Hname : entry_name e' = n).
  { apply (prefix_snoc_inj top _ _ (top ++ [n])); [done|reflexivity]. }
  assert (E : e' = File n c).
  { apply (same_name_same_entry es); [done|done|by apply list_elem_of_In|done]. }
  subst e'. exact Hx'.
Qed.

Lemma walk_entry_NoDup e :
  well_formed e → ∀ top, NoDup (collect_supported (walk_entry top e)).
Proof.
  induction e as [n c|d sub IH] using Entry_nested_ind; intros Hwf top; [constructor|].
  rewrite walk_entry_dir. cbn [well_formed] in Hwf. destruct Hwf as (_ & _ & Hnd & Hsub).
  apply well_formed_all in Hsub. apply os_walk_NoDup; [done|done|].
  apply Forall_forall. intros e He.
  apply (proj1 (Forall_forall _ _) IH e He), (proj1 (Forall_forall _ _) Hsub e He).
Qed.

(** X14.  Discovery returns no path twice when the listing is one a file
    system gives: names that are single components, and no two entries of
    a directory with the same name.  So every supported file is processed
    once. *)
Theorem discovery_has_no_duplicates tables :
  well_formed_listing tables → NoDup (get_all_files tables).
Proof.
  intros [Hnd Hwf]. apply well_formed_all in Hwf.
  apply os_walk_NoDup; [done|done|].
  apply Forall_forall. intros e He. apply walk_entry_NoDup.
  by apply (proj1 (Forall_forall _ _) Hwf).
Qed.

Lemma discovery_has_no_duplicates_witness :
  let tables := [File "a.png" []; File "c.txt" []; Dir "sub" [File "a.png" []; File "b.pdf" []]] in
  well_formed_listing tables ∧ NoDup (get_all_files tables).
Proof.
  intros tables.
  assert (Hwf : well_formed_listing tables).
  { unfold tables, well_formed_listing. cbn. repeat split; try discriminate;
      apply (bool_decide_unpack _); vm_compute; exact I. }
  split; [exact Hwf|].
  exact (discovery_has_no_duplicates tables Hwf).
Defined.

(** ** The encoding loses nothing *)

Example read_base64_examples :
  map (λ s, read_base64 (list_byte_of_string s))
      [""; "Zg=="; "Zm8="; "Zm9v"; "Zm9vYg=="; "Zm9v="; "Zm9"; "Zg==Zm9v"; "Z*9v"]
  = [Some []; Some (list_byte_of_string "f"); Some (list_byte_of_string "fo");
     Some (list_byte_of_string "foo"); Some (list_byte_of_string "foob");
     None; None; None; None].
Proof. vm_compute. reflexivity. Qed.

(** A check that holds of every number below [n] holds of each of them. *)
Lemma checked_below n (P : N → bool) :
  forallb P (map N.of_nat (seq 0 n)) = true → ∀ x, (x < N.of_nat n)%N → P x = true.
Proof.
  intros Hall x Hx. rewrite forallb_forall in Hall. apply Hall.
  apply in_map_iff. exists (N.to_nat x). split; [lia|]. apply in_seq. lia.
Qed.

Lemma checked_below2 n m (P : N → N → bool) :
  forallb (λ x, forallb (P x) (map N.of_nat (seq 0 m))) (map N.of_nat (seq 0 n)) = true →
  ∀ x y, (x < N.of_nat n)%N → (y < N.of_nat m)%N → P x y = true.
Proof.
  intros Hall x y Hx Hy.
  apply (checked_below m (P x)); [|done].
  by apply (checked_below n (λ x, forallb (P x) (map N.of_nat (seq 0 m)))).
Qed.

Lemma to_N_below b : (Byte.to_N b < N.of_nat 256)%N.
Proof. pose proof (Byte.to_N_bounded b). lia. Qed.

(** A character of the alphabet is not the padding, and has the value it
    stands for. *)
Lemma char_value n :
  (n < N.of_nat 64)%N →
  b64_value (base64.char n) = Some n ∧ Byte.eqb (base64.char n) "="%byte = false.
Proof.
  intros Hn.
  pose proof (checked_below 64
    (λ n, match b64_value (base64.char n) with Some v => N.eqb v n | None => false end
          && negb (Byte.eqb (base64.char n) "="%byte)) ltac:(vm_compute; reflexivity) n Hn) as H.
  cbv beta in H. apply andb_true_iff in H as [Hv Hp].
  destruct (b64_value (base64.char n)) as [v|]; [|done].
  apply N.eqb_eq in Hv as ->. split; [done|]. by apply negb_true_iff.
Qed.

(** The four sextets of three bytes are below 64 and give the bytes back. *)
Lemma sextets_of_two x y :
  (x < N.of_nat 256)%N → (y < N.of_nat 256)%N →
  (base64.sextet1 x < N.of_nat 64)%N ∧ (base64.sextet2 x y < N.of_nat 64)%N ∧
  (base64.sextet3 x y < N.of_nat 64)%N ∧ (base64.sextet4 x < N.of_nat 64)%N ∧
  octet1 (base64.sextet1 x) (base64.sextet2 x y) = x ∧
  N.land (base64.sextet2 x y) 15 = N.shiftr y 4 ∧
  N.shiftr (base64.sextet3 x y) 2 = N.land x 15 ∧
  N.land (base64.sextet3 x y) 3 = N.shiftr y 6 ∧
  N.lor (N.shiftl (N.shiftr x 4) 4) (N.land x 15) = x ∧
  N.lor (N.shiftl (N.shiftr x 6) 6) (base64.sextet4 x) = x.
Proof.
  intros Hx Hy.
  pose proof (checked_below2 256 256
    (λ x y,
       (base64.sextet1 x <? 64)%N && (base64.sextet2 x y <? 64)%N &&
       (base64.sextet3 x y <? 64)%N && (base64.sextet4 x <? 64)%N &&
       (octet1 (base64.sextet1 x) (base64.sextet2 x y) =? x)%N &&
       (N.land (base64.sextet2 x y) 15 =? N.shiftr y 4)%N &&
       (N.shiftr (base64.sextet3 x y) 2 =? N.land x 15)%N &&
       (N.land (base64.sextet3 x y) 3 =? N.shiftr y 6)%N &&
       (N.lor (N.shiftl (N.shiftr x 4) 4) (N.land x 15) =? x)%N &&
       (N.lor (N.shiftl (N.shiftr x 6) 6) (base64.sextet4 x) =? x)%N)
    ltac:(vm_compute; reflexivity) x y Hx Hy) as H.
  cbv beta in H. rewrite !andb_true_iff, !N.ltb_lt, !N.eqb_eq in H.
  change (N.of_nat 64) with 64%N. tauto.
Qed.

Lemma byte_of_to_N b : byte_of (Byte.to_N b) = b.
Proof. unfold byte_of. by rewrite Byte.of_to_N. Qed.

Lemma octets_of_sextets x y z :
  (x < N.of_nat 256)%N → (y < N.of_nat 256)%N → (z < N.of_nat 256)%N →
  octet1 (base64.sextet1 x) (base64.sextet2 x y) = x ∧
  octet2 (base64.sextet2 x y) (base64.sextet3 y z) = y ∧
  octet3 (base64.sextet3 y z) (base64.sextet4 z) = z.
Proof.
  intros Hx Hy Hz.
  destruct (sextets_of_two x y Hx Hy) as (_ & _ & _ & _ & H1 & H2 & _).
  destruct (sextets_of_two y z Hy Hz) as (_ & _ & _ & _ & _ & _ & H3 & H4 & H5 & _).
  destruct (sextets_of_two z z Hz Hz) as (_ & _ & _ & _ & _ & _ & _ & _ & _ & H6).
  unfold octet2, octet3. by rewrite H1, H2, H3, H4, H5, H6.
Qed.

(** The value of the character written for a sextet of bytes. *)
Lemma value_of_sextets x y :
  (x < N.of_nat 256)%N → (y < N.of_nat 256)%N →
  b64_value (base64.char (base64.sextet1 x)) = Some (base64.sextet1 x) ∧
  b64_value (base64.char (base64.sextet2 x y)) = Some (base64.sextet2 x y) ∧
  b64_value (base64.char (base64.sextet3 x y)) = Some (base64.sextet3 x y) ∧
  b64_value (base64.char (base64.sextet4 x)) = Some (base64.sextet4 x) ∧
  Byte.eqb (base64.char (base64.sextet3 x y)) "="%byte = false ∧
  Byte.eqb (base64.char (base64.sextet4 x)) "="%byte = false.
Proof.
  intros Hx Hy. destruct (sextets_of_two x y Hx Hy) as (B1 & B2 & B3 & B4 & _).
  destruct (char_value _ B1), (char_value _ B2), (char_value _ B3), (char_value _ B4). done.
Qed.

Lemma read_encoded_upto n : ∀ s,
  (length s ≤ n)%nat → read_base64 (base64.b64encode s) = Some s.
Proof.
  induction n as [n IH] using lt_wf_ind.
  assert (H0 : (0 < N.of_nat 256)%N) by lia.
  intros [|a [|b [|c rest]]] Hn.
  - done.
  - cbn [base64.b64encode read_base64]. change (Byte.eqb "=" "=") with true. cbv iota.
    destruct (value_of_sextets _ 0%N (to_N_below a) H0) as (V1 & V2 & _).
    rewrite V1, V2. cbn [mbind option_bind].
    destruct (octets_of_sextets _ 0%N 0%N (to_N_below a) H0 H0) as (-> & _).
    by rewrite byte_of_to_N.
  - cbn [base64.b64encode read_base64]. change (Byte.eqb "=" "=") with true. cbv iota.
    destruct (value_of_sextets _ _ (to_N_below a) (to_N_below b)) as (V1 & V2 & _).
    destruct (value_of_sextets _ 0%N (to_N_below b) H0) as (_ & _ & V3 & _ & P3 & _).
    rewrite P3, V1, V2, V3. cbn [mbind option_bind].
    destruct (octets_of_sextets _ _ 0%N (to_N_below a) (to_N_below b) H0) as (-> & -> & _).
    by rewrite !byte_of_to_N.
  - cbn [base64.b64encode read_base64].
    destruct (value_of_sextets _ _ (to_N_below a) (to_N_below b)) as (V1 & V2 & _).
    destruct (value_of_sextets _ _ (to_N_below b) (to_N_below c)) as (_ & _ & V3 & _).
    destruct (value_of_sextets _ _ (to_N_below c) (to_N_below c)) as (_ & _ & _ & V4 & _ & P4).
    rewrite P4, V1, V2, V3, V4. cbn [mbind option_bind].
    rewrite (IH (length rest)) by (cbn [length] in Hn; lia). cbn [mbind option_bind].
    destruct (octets_of_sextets _ _ _ (to_N_below a) (to_N_below b) (to_N_below c))
      as (-> & -> & ->).
    by rewrite !byte_of_to_N.
Qed.

(** Reading what the encoder wrote gives the bytes back. *)
Lemma read_encoded s : read_base64 (base64.b64encode s) = Some s.
Proof. by apply (read_encoded_upto (length s)). Qed.

Lemma encoded_text_inj c1 c2 : encoded_text c1 = encoded_text c2 → c1 = c2.
Proof.
  unfold encoded_text. intros E.
  apply (f_equal list_byte_of_string) in E.
  rewrite !list_byte_of_string_of_list_byte in E.
  apply (f_equal read_base64) in E. rewrite !read_encoded in E. by injection E.
Qed.

(** X15.  The payload loses nothing of the file: for a file within the
    limit, the text the encoder returns reads back, as padded base64, to the
    bytes of the file; so two files within the limit that give the same
    text have the same bytes. *)
Theorem payload_loses_nothing file w content :
  disk w !! file = Some content → encoded_size content ≤ MAX_SIZE →
  ∃ text,
    _load_file file w = (Ret text, w) ∧
    read_base64 (list_byte_of_string text) = Some content ∧
    ∀ file' w' content',
      disk w' !! file' = Some content' → encoded_size content' ≤ MAX_SIZE →
      _load_file file' w' = (Ret text, w') → content' = content.
Proof.
  intros Hf Hs. exists (encoded_text content).
  split; [by apply load_file_accepted|]. split.
  - unfold encoded_text. rewrite list_byte_of_string_of_list_byte. apply read_encoded.
  - intros file' w' content' Hf' Hs' Hl.
    rewrite (load_file_accepted file' w' content' Hf' Hs') in Hl.
    injection Hl as E. by apply encoded_text_inj.
Qed.

Lemma payload_loses_nothing_witness :
  let file := ["tables"; "a.png"] in
  let content := ["h"%byte; "i"%byte] in
  let w := initial_world {[ file := content ]} in
  (disk w !! file = Some content ∧ encoded_size content ≤ MAX_SIZE) ∧
  ∃ text,
    _load_file file w = (Ret text, w) ∧
    read_base64 (list_byte_of_string text) = Some content ∧
    ∀ file' w' content',
      disk w' !! file' = Some content' → encoded_size content' ≤ MAX_SIZE →
      _load_file file' w' = (Ret text, w') → content' = content.
Proof.
  intros file content w.
  assert (Hf : disk w !! file = Some content) by apply lookup_singleton_eq.
  assert (Hs : encoded_size content ≤ MAX_SIZE) by (vm_compute; discriminate).
  split; [exact (conj Hf Hs)|].
  exact (payload_loses_nothing file w content Hf Hs).
Defined.

(** ** Discovery and then the batch (lines 165 and 170) *)

Section Discovered.
Context `{lib : Base64Lib}.



End Discovered.



(** ** Errors in the log *)

(** X17.  For a readable file and a provider that answers with a [Data]
    the decoder reads or fails with its own exception, the client logs an
    ERROR record exactly when the file is too large or the provider fails;
    it then returns [b''].  An empty file, which also gives [b''], leaves no
    ERROR record. *)
Theorem error_logged_iff_failed `{lib : Base64Lib} client file pdf_page w content :
  disk w !! file = Some content →
  (∀ req, (∃ response data, client (length (calls w)) req = Ret response ∧
                            b64decode (Data response) = Ret data) ∨
          sdk_failure (client (length (calls w)) req)) →
  ∃ ls data w',
    get_ocr_result client file pdf_page w = (Ret data, w') ∧
    logs w' = logs w ++ ls ∧
    (Exists (λ r, levelname r = ERROR) ls ↔
     MAX_SIZE < encoded_size content ∨
     (accepted content ∧
      sdk_failure (client (length (calls w))
                     (request_params (encoded_text content) file pdf_page)))) ∧
    (Exists (λ r, levelname r = ERROR) ls → data = []).
Proof.
  intros Hf Hc. rewrite get_ocr_result_summary, Hf. unfold recognition.
  destruct (Z.ltb_spec MAX_SIZE (encoded_size content)) as [Hs|Hs].
  { eexists [_], [], _. split; [reflexivity|]. split; [done|]. split; [|done].
    split; [by left|]. intros _. by apply Exists_cons_hd. }
  destruct (String.eqb _ _) eqn:E.
  { apply encoded_text_empty_iff in E. subst content.
    eexists [], [], _. split; [reflexivity|]. split; [done|]. split; [|done].
    split; [by intros ?%Exists_nil|]. intros [?|[[] _]]; [lia|done]. }
  assert (Ha : accepted content).
  { split; [|done]. intros ->. discriminate E. }
  cbv zeta.
  destruct (Hc (request_params (encoded_text content) file pdf_page))
    as [(response & data & Hr & Hd)|(code & message & Hr)]; rewrite Hr.
  - rewrite Hd. eexists [_; _], data, _. split; [reflexivity|]. split; [done|].
    assert (Hno : ¬ Exists (λ r, levelname r = ERROR)
                    [params_record (request_params (encoded_text content) file pdf_page);
                     result_record response]).
    { intros H. apply Exists_cons in H as [H|H]; [done|].
      apply Exists_cons in H as [H|H]; [done|]. by apply Exists_nil in H. }
    split; [|by intros ?%Hno]. split; [by intros ?%Hno|].
    intros [?|[_ (c & m & [=])]]. lia.
  - eexists [_; _], [], _. split; [reflexivity|]. split; [done|]. split; [|done].
    split; [intros _; right; split; [done|by exists code, message]|].
    intros _. apply Exists_cons_tl. by apply Exists_cons_hd.
Qed.

Lemma error_logged_iff_failed_witness :
  let file := ["tables"; "a.png"] in
  let content := ["h"%byte; "i"%byte] in
  let w := initial_world {[ file := content ]} in
  (disk w !! file = Some content ∧
   (∀ req, (∃ response data, failing_client (length (calls w)) req = Ret response ∧
                             b64decode (Base64Lib := sample_base64) (Data response) = Ret data) ∨
           sdk_failure (failing_client (length (calls w)) req))) ∧
  ∃ ls data w',
    get_ocr_result (lib := sample_base64) failing_client file None w = (Ret data, w') ∧
    logs w' = logs w ++ ls ∧
    (Exists (λ r, levelname r = ERROR) ls ↔
     MAX_SIZE < encoded_size content ∨
     (accepted content ∧
      sdk_failure (failing_client (length (calls w))
                     (request_params (encoded_text content) file None)))) ∧
    (Exists (λ r, levelname r = ERROR) ls → data = []).
Proof.
  intros file content w.
  assert (Hf : disk w !! file = Some content) by apply lookup_singleton_eq.
  assert (Hc : ∀ req,
            (∃ response data, failing_client (length (calls w)) req = Ret response ∧
                              b64decode (Base64Lib := sample_base64) (Data response) = Ret data) ∨
            sdk_failure (failing_client (length (calls w)) req)).
  { intros req. right. unfold sdk_failure, failing_client. eauto. }
  split; [exact (conj Hf Hc)|].
  exact (error_logged_iff_failed (lib := sample_base64) failing_client file None w content Hf Hc).
Defined.
